(** * Loan product dashboard: the cleaning and aggregation pipeline of app.py

    The development embeds the data path of [src/app.py] (lines 41-120):
    column validation, the three column coercions, and the four grouped
    aggregations handed to the charts and to the table.  The Streamlit,
    matplotlib and seaborn calls only display these tables and are left out,
    as is the final string formatting of the statistics table (lines 122-127).

    Conventions of the embedding.
    - A binary64 value is a rational, an infinity or NaN.  Finite arithmetic is
      exact: rounding, overflow to infinity and the sign of zero are not
      modelled.  Every finite result is stored in lowest terms, so equal
      numbers are equal terms.  An integer column is read through the same
      numbers, without the wrap-around of 64-bit sums.
    - Strings are byte strings; whitespace and letter case are those of ASCII.
    - pandas is the 1.x/2.x line: [astype(str)] turns a missing value into the
      text [nan], and timestamps have nanosecond resolution. *)

From Stdlib Require Import List Bool Arith ZArith QArith Qreduction Lia.
From Stdlib Require Import Ascii String DecimalString.
From Stdlib Require Import Permutation Sorted Mergesort Orders.
Import ListNotations.

Local Close Scope Q_scope.
Local Open Scope string_scope.
Local Open Scope list_scope.

(* ------------------------------------------------------------------ *)
(** ** float64 values *)

Module Float64.

Inductive float : Type :=
| FNum (q : Q)            (* a finite value *)
| FInf (negative : bool)  (* inf, -inf *)
| FNaN.

Definition of_Z (z : Z) : float := FNum (inject_Z z).
Definition of_nat (n : nat) : float := of_Z (Z.of_nat n).

Definition isnan (x : float) : bool :=
  match x with FNaN => true | _ => false end.

Definition isfinite (x : float) : bool :=
  match x with FNum _ => true | _ => false end.

Definition is_zero (q : Q) : bool := (Qnum q =? 0)%Z.
Definition is_neg (q : Q) : bool := (Qnum q <? 0)%Z.

Definition fadd (x y : float) : float :=
  match x, y with
  | FNaN, _ | _, FNaN => FNaN
  | FNum a, FNum b => FNum (Qred (a + b))
  | FInf s, FNum _ => FInf s
  | FNum _, FInf s => FInf s
  | FInf s, FInf t => if Bool.eqb s t then FInf s else FNaN
  end.

Definition fmul (x y : float) : float :=
  match x, y with
  | FNaN, _ | _, FNaN => FNaN
  | FNum a, FNum b => FNum (Qred (a * b))
  | FInf s, FNum b => if is_zero b then FNaN else FInf (xorb s (is_neg b))
  | FNum a, FInf s => if is_zero a then FNaN else FInf (xorb s (is_neg a))
  | FInf s, FInf t => FInf (xorb s t)
  end.

(** Division never raises: numpy yields NaN for 0/0 and an infinity for x/0. *)
Definition fdiv (x y : float) : float :=
  match x, y with
  | FNaN, _ | _, FNaN => FNaN
  | FNum a, FNum b =>
      if is_zero b
      then (if is_zero a then FNaN else FInf (is_neg a))
      else FNum (Qred (a / b))
  | FNum _, FInf _ => FNum 0
  | FInf s, FNum b => FInf (xorb s (is_neg b))
  | FInf _, FInf _ => FNaN
  end.

(** [x <= y] on non-NaN values. *)
Definition fleb (x y : float) : bool :=
  match x, y with
  | FNaN, _ | _, FNaN => false
  | FInf true, _ => true
  | _, FInf false => true
  | FNum a, FNum b => Qle_bool a b
  | _, _ => false
  end.

Definition dropnan (l : list float) : list float :=
  filter (fun x => negb (isnan x)) l.

(** [sum] with pandas' default [skipna=True]; the sum of nothing is 0. *)
Definition nansum (l : list float) : float :=
  fold_right fadd (FNum 0) (dropnan l).

Definition extremum (pick : float -> float -> float) (l : list float) : float :=
  match dropnan l with
  | [] => FNaN
  | x :: r => fold_left pick r x
  end.

Definition nanmax : list float -> float :=
  extremum (fun a b => if fleb a b then b else a).

Definition nanmin : list float -> float :=
  extremum (fun a b => if fleb b a then b else a).

(** [mean]: the sum of the non-NaN values over their number. *)
Definition nanmean (l : list float) : float :=
  fdiv (nansum l) (of_nat (List.length (dropnan l))).

(** The value is a real number that is not negative. *)
Definition nonneg_real (x : float) : Prop :=
  match x with FNum q => (0 <= q)%Q | _ => False end.

End Float64.
Export Float64.

(* ------------------------------------------------------------------ *)
(** ** Text: trimming, case, numeric literals *)

Module Text.

Definition code (c : ascii) : nat := nat_of_ascii c.

Definition between (lo hi : nat) (c : ascii) : bool :=
  (lo <=? code c)%nat && (code c <=? hi)%nat.

(** Whitespace removed by Python's [str.strip()]. *)
Definition is_space (c : ascii) : bool := between 9 13 c || between 28 32 c.

(** Whitespace of C's [isspace], skipped around a numeric literal. *)
Definition is_cspace (c : ascii) : bool := between 9 13 c || between 32 32 c.

Fixpoint lskip (sp : ascii -> bool) (s : string) : string :=
  match s with
  | String c s' => if sp c then lskip sp s' else s
  | EmptyString => EmptyString
  end.

Fixpoint rskip (sp : ascii -> bool) (s : string) : string :=
  match s with
  | EmptyString => EmptyString
  | String c s' =>
      match rskip sp s' with
      | EmptyString => if sp c then EmptyString else String c EmptyString
      | r => String c r
      end
  end.

Definition strip (s : string) : string := rskip is_space (lskip is_space s).

Definition lower_ascii (c : ascii) : ascii :=
  if between 65 90 c then ascii_of_nat (code c + 32) else c.

Fixpoint lower (s : string) : string :=
  match s with
  | EmptyString => EmptyString
  | String c s' => String (lower_ascii c) (lower s')
  end.

Definition digit_of (c : ascii) : option Z :=
  if between 48 57 c then Some (Z.of_nat (code c - 48)) else None.

Definition digit_char (d : Z) : ascii := ascii_of_nat (48 + Z.to_nat d).

(** Reads the longest run of digits: the value accumulated on [acc], the
    number of digits read, and the text that follows. *)
Fixpoint read_digits (s : string) (acc : Z) (n : nat) : Z * nat * string :=
  match s with
  | String c s' =>
      match digit_of c with
      | Some d => read_digits s' (10 * acc + d)%Z (S n)
      | None => (acc, n, s)
      end
  | EmptyString => (acc, n, s)
  end.

Definition read_sign (s : string) : bool * string :=
  match s with
  | String "-" s' => (true, s')
  | String "+" s' => (false, s')
  | _ => (false, s)
  end.

(** An exponent part [e], sign, digits; nothing is consumed without digits. *)
Definition read_exponent (s : string) : Z * string :=
  match s with
  | String c s' =>
      if (Ascii.eqb c "e" || Ascii.eqb c "E")%bool then
        let '(neg, s1) := read_sign s' in
        let '(v, n, s2) := read_digits s1 0%Z 0%nat in
        match n with
        | O => (0%Z, s)
        | _ => ((if neg then - v else v)%Z, s2)
        end
      else (0%Z, s)
  | EmptyString => (0%Z, s)
  end.

(** [m * 10^e] as a rational in lowest terms. *)
Definition scale10 (m e : Z) : Q :=
  if (0 <=? e)%Z then inject_Z (m * 10 ^ e)
  else Qred (m # Z.to_pos (10 ^ (- e))).

(** A decimal literal in the whole string: blanks, sign, digits with an
    optional point, an optional exponent, blanks. *)
Definition to_double (s : string) : option Q :=
  let '(neg, s1) := read_sign (lskip is_cspace s) in
  let '(ip, n1, s2) := read_digits s1 0%Z 0%nat in
  let '(m, n2, s3) :=
    match s2 with
    | String "." s' => read_digits s' ip 0%nat
    | _ => (ip, 0%nat, s2)
    end in
  if (n1 + n2 =? 0)%nat then None
  else
    let '(e, s4) := read_exponent s3 in
    match lskip is_cspace s4 with
    | EmptyString => Some (scale10 (if neg then - m else m) (e - Z.of_nat n2))
    | _ => None
    end.

Definition one_of (s : string) (l : list string) : bool :=
  existsb (String.eqb s) l.

(** The value of a numeric string, or [None] when it is not one.  Besides
    decimal literals the words inf, infinity and nan are read, in any case. *)
Definition floatify (s : string) : option float :=
  match to_double s with
  | Some q => Some (FNum q)
  | None =>
      let w := lower s in
      if one_of w ["inf"; "+inf"; "infinity"; "+infinity"] then Some (FInf false)
      else if one_of w ["-inf"; "-infinity"] then Some (FInf true)
      else if one_of w ["nan"; "+nan"; "-nan"] then Some FNaN
      else None
  end.

Definition str_Z (z : Z) : string := NilZero.string_of_int (Z.to_int z).

(** The digits of [r/d] after the point, at most [fuel] of them. *)
Fixpoint frac_digits (fuel : nat) (r d : Z) : string :=
  match fuel with
  | O => EmptyString
  | S f =>
      if (r =? 0)%Z then EmptyString
      else String (digit_char (10 * r / d)) (frac_digits f ((10 * r) mod d) d)
  end.

(** [str] of a float in positional notation with at least one decimal, which
    is how Python prints magnitudes from 1e-4 up to 1e16. *)
Definition str_float (x : float) : string :=
  match x with
  | FNaN => "nan"
  | FInf false => "inf"
  | FInf true => "-inf"
  | FNum q =>
      let n := Z.abs (Qnum q) in
      let d := Zpos (Qden q) in
      (if is_neg q then "-" else "") ++ str_Z (n / d) ++ "." ++
      match frac_digits 17 (n mod d) d with
      | EmptyString => "0"
      | f => f
      end
  end.

End Text.
Export Text.

(* ------------------------------------------------------------------ *)
(** ** Dates: [strptime] with the format %d-%m-%Y, monthly periods *)

Module Datetime.

Record Timestamp : Type := { year : Z; month : Z; day : Z }.

(** The text before the first dash, and the text after it when there is one. *)
Fixpoint split_dash (s : string) : string * option string :=
  match s with
  | EmptyString => (EmptyString, None)
  | String c s' =>
      if Ascii.eqb c "-" then (EmptyString, Some s')
      else let '(a, r) := split_dash s' in (String c a, r)
  end.

Definition nonzero_digit (c : ascii) : option Z :=
  match digit_of c with
  | Some d => if (d =? 0)%Z then None else Some d
  | None => None
  end.

Definition two_digits (lo hi : Z) (c1 c2 : ascii) : option Z :=
  match digit_of c1, digit_of c2 with
  | Some a, Some b =>
      let v := (10 * a + b)%Z in
      if ((lo <=? v) && (v <=? hi))%Z then Some v else None
  | _, _ => None
  end.

(** %d : 3[0-1] | [1-2]\d | 0[1-9] | [1-9] | blank [1-9] *)
Definition field_d (s : string) : option Z :=
  match s with
  | String c EmptyString => nonzero_digit c
  | String c1 (String c2 EmptyString) =>
      if Ascii.eqb c1 " " then nonzero_digit c2 else two_digits 1 31 c1 c2
  | _ => None
  end.

(** %m : 1[0-2] | 0[1-9] | [1-9] *)
Definition field_m (s : string) : option Z :=
  match s with
  | String c EmptyString => nonzero_digit c
  | String c1 (String c2 EmptyString) => two_digits 1 12 c1 c2
  | _ => None
  end.

(** %Y : four digits *)
Definition field_Y (s : string) : option Z :=
  match s with
  | String a (String b (String c (String d EmptyString))) =>
      match digit_of a, digit_of b, digit_of c, digit_of d with
      | Some x3, Some x2, Some x1, Some x0 =>
          Some (1000 * x3 + 100 * x2 + 10 * x1 + x0)%Z
      | _, _, _, _ => None
      end
  | _ => None
  end.

Definition is_leap (y : Z) : bool :=
  (((y mod 4 =? 0) && negb (y mod 100 =? 0)) || (y mod 400 =? 0))%Z.

Definition days_in_month (y m : Z) : Z :=
  match m with
  | 1 | 3 | 5 | 7 | 8 | 10 | 12 => 31
  | 4 | 6 | 9 | 11 => 30
  | 2 => if is_leap y then 29 else 28
  | _ => 0
  end%Z.

Definition valid_date (t : Timestamp) : bool :=
  ((1 <=? year t) && (day t <=? days_in_month (year t) (month t)))%Z.

(** Midnights that a nanosecond timestamp can hold:
    1677-09-22 to 2262-04-11. *)
Definition in_bounds (t : Timestamp) : bool :=
  let n := (year t * 10000 + month t * 100 + day t)%Z in
  ((16770922 <=? n) && (n <=? 22620411))%Z.

(** The whole string must match day-month-year and name a real date. *)
Definition strptime (s : string) : option Timestamp :=
  match split_dash s with
  | (d, Some r) =>
      match split_dash r with
      | (m, Some y) =>
          match field_d d, field_m m, field_Y y with
          | Some dd, Some mm, Some yy =>
              let t := {| year := yy; month := mm; day := dd |} in
              if valid_date t && in_bounds t then Some t else None
          | _, _, _ => None
          end
      | _ => None
      end
  | _ => None
  end.

(** A monthly period is the number of months since January 1970. *)
Definition Period : Type := Z.

Definition to_period_M (t : Timestamp) : Period :=
  ((year t - 1970) * 12 + (month t - 1))%Z.

Definition period_year (p : Period) : Z := (1970 + p / 12)%Z.
Definition period_month (p : Period) : Z := (p mod 12 + 1)%Z.

Definition digits (n : nat) (v : Z) : string :=
  (fix go n v acc :=
     match n with
     | O => acc
     | S k => go k (v / 10)%Z (String (digit_char (v mod 10)) acc)
     end) n v EmptyString.

(** [str] of a monthly period: YYYY-MM. *)
Definition period_str (p : Period) : string :=
  digits 4 (period_year p) ++ "-" ++ digits 2 (period_month p).

End Datetime.
Export Datetime.

(* ------------------------------------------------------------------ *)
(** ** Frames, series and the pandas operations the script calls *)

Module StringOrder <: TotalLeBool.
Definition t := string.
Definition leb := String.leb.
Definition leb_total : forall a b, is_true (leb a b) \/ is_true (leb b a) :=
  String.leb_total.
End StringOrder.

Module ZOrder <: TotalLeBool.
Definition t := Z.
Definition leb := Z.leb.
Definition leb_total : forall a b, is_true (leb a b) \/ is_true (leb b a) :=
  fun a b =>
    match Z.le_ge_cases a b with
    | or_introl H => or_introl (proj2 (Z.leb_le a b) H)
    | or_intror H => or_intror (proj2 (Z.leb_le b a) H)
    end.
End ZOrder.

Module StringSort := Sort StringOrder.
Module ZSort := Sort ZOrder.

Module Frame.

(** What [read_csv] leaves in a cell: text, an integer or a float.  A missing
    value is the float NaN. *)
Inductive cell : Type :=
| Text (s : string)
| Int (z : Z)
| Float (x : float).

Definition NaN : cell := Float FNaN.

Definition isna (c : cell) : bool :=
  match c with Float FNaN => true | _ => false end.

Definition notna (c : cell) : bool := negb (isna c).

Definition Series : Type := list cell.

(** A frame is its header and its records; a record shorter than the header
    is missing its last cells. *)
Record DataFrame : Type := { columns : list string; records : list (list cell) }.

Definition len (df : DataFrame) : nat := List.length (records df).

Fixpoint get_loc (col : string) (cols : list string) : option nat :=
  match cols with
  | [] => None
  | c :: r => if String.eqb col c then Some O else option_map S (get_loc col r)
  end.

(** [df[col]]; [None] stands for KeyError. *)
Definition getitem (df : DataFrame) (col : string) : option Series :=
  option_map (fun i => map (fun r => nth i r NaN) (records df))
             (get_loc col (columns df)).

(** [str(value)] of a cell, which is [astype(str)] on a series. *)
Definition str_cell (c : cell) : string :=
  match c with
  | Text s => s
  | Int z => str_Z z
  | Float x => str_float x
  end.

Definition astype_str (s : Series) : list string := map str_cell s.

(** [pd.to_datetime(s, format="%d-%m-%Y", errors="coerce")]: a value that is
    not text is matched through its [str]; no match gives NaT, here [None]. *)
Definition to_datetime (s : Series) : list (option Timestamp) :=
  map (fun c => strptime (str_cell c)) s.

Definition numeric_cell (c : cell) : float :=
  match c with
  | Text s => match floatify s with Some x => x | None => FNaN end
  | Int z => of_Z z
  | Float x => x
  end.

(** [pd.to_numeric(s, errors="coerce")] *)
Definition to_numeric (s : Series) : list float := map numeric_cell s.

Definition fillna (v : float) (s : list float) : list float :=
  map (fun x => if isnan x then v else x) s.

(** [count]: the values that are not missing. *)
Definition count (s : Series) : nat := List.length (filter notna s).

Section GroupBy.
Context {K V R : Type}.
Variable eqb : K -> K -> bool.
Variable sort : list K -> list K.

(** [unique]: the distinct values in order of first appearance. *)
Fixpoint unique (l : list K) : list K :=
  match l with
  | [] => []
  | x :: r => x :: filter (fun y => negb (eqb x y)) (unique r)
  end.

Definition get_group (k : K) (rows : list (K * V)) : list V :=
  map snd (filter (fun kv => eqb k (fst kv)) rows).

(** [groupby(key)[value].agg(f)]: one row per distinct key, keys sorted. *)
Definition groupby_agg (agg : list V -> R) (rows : list (K * V)) : list (K * R) :=
  map (fun k => (k, agg (get_group k rows))) (sort (unique (map fst rows))).

(** [groupby] leaves out the rows whose key is missing. *)
Fixpoint dropna_keys (rows : list (option K * V)) : list (K * V) :=
  match rows with
  | [] => []
  | (Some k, v) :: r => (k, v) :: dropna_keys r
  | (None, _) :: r => dropna_keys r
  end.

(** [left.merge(right, on=key, how="left")]: every left key in order, once
    per matching right row, with a missing value when there is none. *)
Definition merge_left (left : list K) (right : list (K * V)) : list (K * option V) :=
  flat_map (fun k =>
              match get_group k right with
              | [] => [(k, None)]
              | vs => map (fun v => (k, Some v)) vs
              end) left.
End GroupBy.

End Frame.
Export Frame.

(* ------------------------------------------------------------------ *)
(** ** app.py *)

Module App.

Definition required_columns : list string :=
  ["Loan_ID"; "Loan_Amount"; "Date_Granted"; "Loan_Type"].

(** [[col for col in required_columns if col not in df.columns]] *)
Definition missing_columns (df : DataFrame) : list string :=
  filter (fun col => negb (existsb (String.eqb col) (columns df))) required_columns.

(** The four columns the script works on, after lines 55-61. *)
Record Loans : Type := {
  Loan_ID : Series;
  Loan_Amount : list float;
  Date_Granted : list (option Timestamp);
  Loan_Type : list string
}.

Definition clean (df : DataFrame) : option Loans :=
  match getitem df "Date_Granted", getitem df "Loan_Amount",
        getitem df "Loan_Type", getitem df "Loan_ID" with
  | Some dates, Some amounts, Some types, Some ids =>
      Some {| Loan_ID := ids;
              Loan_Amount := fillna (FNum 0) (to_numeric amounts);
              Date_Granted := to_datetime dates;
              Loan_Type := map (fun s => lower (strip s)) (astype_str types) |}
  | _, _, _, _ => None
  end.

Definition all_loan_types (df : Loans) : list string :=
  unique String.eqb (Loan_Type df).

Definition by_type {V R : Type} (agg : list V -> R) (df : Loans) (values : list V)
  : list (string * R) :=
  groupby_agg String.eqb StringSort.sort agg (combine (Loan_Type df) values).

(** Lines 69-72. *)
Definition product_count (df : Loans) : list (string * nat) :=
  map (fun '(t, c) => (t, match c with Some n => n | None => O end))
      (merge_left String.eqb (all_loan_types df) (by_type count df (Loan_ID df))).

(** Lines 83-86. *)
Definition product_amount (df : Loans) : list (string * float) :=
  map (fun '(t, a) => (t, match a with Some x => x | None => FNum 0 end))
      (merge_left String.eqb (all_loan_types df) (by_type nansum df (Loan_Amount df))).

(** Lines 97-98: the month of each date, and the sum per month. *)
Definition Month (df : Loans) : list (option Period) :=
  map (option_map to_period_M) (Date_Granted df).

Definition monthly_groups (df : Loans) : list (Period * float) :=
  groupby_agg Z.eqb ZSort.sort nansum (dropna_keys (combine (Month df) (Loan_Amount df))).

(** Line 99. *)
Definition monthly_summary (df : Loans) : list (string * float) :=
  map (fun '(p, x) => (period_str p, x)) (monthly_groups df).

Record StatsRow : Type := {
  key : string;
  Total_Loans : nat;
  Total_Amount : float;
  Avg_Amount : float;
  Max_Amount : float;
  Min_Amount : float;
  Portfolio_Percentage : float
}.

(** Lines 110-116; the percentage column is filled at line 120. *)
Definition aggregate (df : Loans) : list StatsRow :=
  map (fun '(t, g) =>
         {| key := t;
            Total_Loans := count (map fst g);
            Total_Amount := nansum (map snd g);
            Avg_Amount := nanmean (map snd g);
            Max_Amount := nanmax (map snd g);
            Min_Amount := nanmin (map snd g);
            Portfolio_Percentage := FNaN |})
      (by_type (fun g => g) df (combine (Loan_ID df) (Loan_Amount df))).

(** Line 119. *)
Definition total_loans_disbursed (df : Loans) : float :=
  nansum (map Total_Amount (aggregate df)).

(** Line 120. *)
Definition portfolio_percentage (total : float) (r : StatsRow) : float :=
  fmul (fdiv (Total_Amount r) total) (of_Z 100).

Definition product_stats (df : Loans) : list StatsRow :=
  map (fun r =>
         {| key := key r;
            Total_Loans := Total_Loans r;
            Total_Amount := Total_Amount r;
            Avg_Amount := Avg_Amount r;
            Max_Amount := Max_Amount r;
            Min_Amount := Min_Amount r;
            Portfolio_Percentage := portfolio_percentage (total_loans_disbursed df) r |})
      (aggregate df).

Record Reports : Type := {
  count_report : list (string * nat);
  amount_report : list (string * float);
  monthly_report : list (string * float);
  stats_report : list StatsRow
}.

Definition analyse (df : Loans) : Reports :=
  {| count_report := product_count df;
     amount_report := product_amount df;
     monthly_report := monthly_summary df;
     stats_report := product_stats df |}.

(** What one upload ends in: the error box naming the missing columns, an
    uncaught KeyError, or the four tables. *)
Inductive outcome : Type :=
| MissingColumns (cols : list string)
| KeyError
| Dashboard (r : Reports).

(** Lines 48-129. *)
Definition main (df : DataFrame) : outcome :=
  match missing_columns df with
  | [] =>
      match clean df with
      | Some loans => Dashboard (analyse loans)
      | None => KeyError
      end
  | missing => MissingColumns missing
  end.

End App.
Export App.

(* ------------------------------------------------------------------ *)
(** ** Vocabulary of the statements *)

Definition Qsum (l : list Q) : Q := fold_right Qplus 0%Q l.

(** The columns of a cleaned frame have one value per row. *)
Definition aligned (df : Loans) : Prop :=
  List.length (Loan_ID df) = List.length (Loan_Type df) /\
  List.length (Loan_Amount df) = List.length (Loan_Type df) /\
  List.length (Date_Granted df) = List.length (Loan_Type df).

(** The values of the rows whose type is [t]. *)
Definition of_type {V : Type} (df : Loans) (values : list V) (t : string) : list V :=
  get_group String.eqb t (combine (Loan_Type df) values).

Definition in_month (p : Period) (d : option Timestamp) : bool :=
  match d with
  | Some t => Z.eqb p (to_period_M t)
  | None => false
  end.

(** The amounts of the rows granted in month [p]. *)
Definition amounts_in_month (df : Loans) (p : Period) : list float :=
  map snd (filter (fun r => in_month p (fst r))
                  (combine (Date_Granted df) (Loan_Amount df))).

(** The same loans with other grant dates. *)
Definition with_dates (df : Loans) (dates : list (option Timestamp)) : Loans :=
  {| Loan_ID := Loan_ID df;
     Loan_Amount := Loan_Amount df;
     Date_Granted := dates;
     Loan_Type := Loan_Type df |}.

(** The plain sum of a column, in which a NaN is not skipped. *)
Definition fsum (l : list float) : float := fold_right fadd (FNum 0) l.

(** The cell holds a number or the text of one. *)
Definition parses_as_number (c : cell) : bool :=
  match c with
  | Text s => match floatify s with Some _ => true | None => false end
  | _ => true
  end.

(** The cell reads as a date in the day-month-year format. *)
Definition parses_as_date (c : cell) : bool :=
  match strptime (str_cell c) with Some _ => true | None => false end.

(** The amounts of the rows that have a date. *)
Definition dated_amounts (df : Loans) : list float :=
  map snd (filter (fun r => match fst r with Some _ => true | None => false end)
                  (combine (Date_Granted df) (Loan_Amount df))).

(** Line 61 on one value: trimmed, then lower case. *)
Definition normalize (s : string) : string := lower (strip s).

(** The four tables of an upload without rows. *)
Definition no_rows : Reports :=
  {| count_report := []; amount_report := []; monthly_report := [];
     stats_report := [] |}.

(** [x <= y] for two floats. *)
Definition fle (x y : float) : Prop := fleb x y = true.

(** ** Sample uploads *)

Module Samples.

Definition header : list string :=
  ["Loan_ID"; "Loan_Amount"; "Date_Granted"; "Loan_Type"].

(** The three loans of the worked example. *)
Definition three_loans : DataFrame :=
  {| columns := header;
     records := [[Text "L1"; Text "1000"; Text "01-01-2024"; Text "Personal"];
                 [Text "L2"; Text "abc"; Text "15-01-2024"; Text " personal "];
                 [Text "L3"; Text "500"; Text "bad-date"; Text "Auto"]] |}.

(** A file without its Loan_Type column. *)
Definition no_type_column : DataFrame :=
  {| columns := ["Loan_ID"; "Loan_Amount"; "Date_Granted"];
     records := [[Int 1; Int 1000; Text "01-01-2024"]] |}.

(** A repayment entered as a negative amount: the column is read as
    integers. *)
Definition negative_amount : DataFrame :=
  {| columns := header;
     records := [[Text "L1"; Int (-5); Text "01-01-2024"; Text "auto"]] |}.

(** Two loans, the second with its identifier left empty. *)
Definition missing_id : DataFrame :=
  {| columns := header;
     records := [[Text "L1"; Int 100; Text "01-01-2024"; Text "auto"];
                 [NaN; Int 200; Text "02-01-2024"; Text "home"]] |}.

(** Loans whose amounts are all zero. *)
Definition zero_amounts : DataFrame :=
  {| columns := header;
     records := [[Int 1; Int 0; Text "01-01-2024"; Text "auto"];
                 [Int 2; Int 0; Text "02-01-2024"; Text "home"]] |}.

(** An amount written as inf: the column is read as floats. *)
Definition infinite_amount : DataFrame :=
  {| columns := header;
     records := [[Text "L1"; Float (FInf false); Text "01-01-2024"; Text "auto"];
                 [Text "L2"; Float (FNum 100); Text "01-02-2024"; Text "home"]] |}.

(** A loan whose type was left empty. *)
Definition missing_type : DataFrame :=
  {| columns := header;
     records := [[Int 1; Int 100; Text "01-01-2024"; Text "Auto"];
                 [Int 2; Int 250; Text "05-03-2024"; NaN]] |}.

End Samples.

Module Edge.

(** A file that has its header and no record. *)
Definition header_only : DataFrame :=
  {| columns := Samples.header; records := [] |}.

(** The three loans of the worked example in a file with a Branch column and
    the columns in another order. *)
Definition with_branch : DataFrame :=
  {| columns := ["Branch"; "Loan_Type"; "Loan_ID"; "Date_Granted"; "Loan_Amount"];
     records := [[Text "North"; Text "Personal"; Text "L1"; Text "01-01-2024"; Text "1000"];
                 [Text "South"; Text " personal "; Text "L2"; Text "15-01-2024"; Text "abc"];
                 [Text "North"; Text "Auto"; Text "L3"; Text "bad-date"; Text "500"]] |}.

(** Loans over two months, one of them without a date and one without an
    identifier. *)
Definition two_months : DataFrame :=
  {| columns := Samples.header;
     records := [[Text "L1"; Int 1000; Text "01-01-2024"; Text "Home"];
                 [NaN; Int 250; Text "15-02-2024"; Text "auto"];
                 [Text "L3"; Int 750; Text "soon"; Text " AUTO"];
                 [Text "L4"; Int 500; Text "20-01-2024"; Text "home "]] |}.

(** The same loans in another order. *)
Definition two_months_shuffled : DataFrame :=
  {| columns := Samples.header;
     records := [[Text "L3"; Int 750; Text "soon"; Text " AUTO"];
                 [Text "L4"; Int 500; Text "20-01-2024"; Text "home "];
                 [NaN; Int 250; Text "15-02-2024"; Text "auto"];
                 [Text "L1"; Int 1000; Text "01-01-2024"; Text "Home"]] |}.

End Edge.

(* ------------------------------------------------------------------ *)
(** * Properties *)

#[local] Arguments Qred : simpl never.
#[local] Arguments Qplus : simpl never.
#[local] Arguments Qmult : simpl never.
#[local] Arguments Qdiv : simpl never.

(** ** Lists *)

Section ListFacts.
Context {A B : Type}.

Lemma map_fst_combine (l : list A) (l' : list B) :
  List.length l = List.length l' -> map fst (combine l l') = l.
Proof.
  revert l'. induction l as [|a l IH]; intros [|b l'] H; simpl in *;
    try discriminate; auto.
  f_equal. apply IH. lia.
Qed.

Lemma map_snd_combine (l : list A) (l' : list B) :
  List.length l = List.length l' -> map snd (combine l l') = l'.
Proof.
  revert l'. induction l as [|a l IH]; intros [|b l'] H; simpl in *;
    try discriminate; auto.
  f_equal. apply IH. lia.
Qed.

Lemma filter_none (f : A -> bool) (l : list A) :
  (forall x, In x l -> f x = false) -> filter f l = [].
Proof.
  induction l as [|a l IH]; intros H; simpl; auto.
  rewrite (H a) by (left; reflexivity). apply IH. intros x Hx. apply H. now right.
Qed.

Lemma list_sum_pointwise (f g : A -> nat) (l : list A) :
  list_sum (map (fun x => f x + g x) l) = list_sum (map f l) + list_sum (map g l).
Proof. induction l as [|a l IH]; simpl; lia. Qed.
End ListFacts.

(** ** Keys: [unique], groups and the left join *)

Section KeyFacts.
Context {K : Type}.
Variable eqb : K -> K -> bool.
Hypothesis eqb_eq : forall x y, eqb x y = true <-> x = y.

Lemma eqb_refl' (x : K) : eqb x x = true.
Proof. now apply eqb_eq. Qed.

Lemma eqb_neq (x y : K) : eqb x y = false <-> x <> y.
Proof.
  split.
  - intros H E. apply eqb_eq in E. congruence.
  - intros H. destruct (eqb x y) eqn:E; auto. apply eqb_eq in E. contradiction.
Qed.

Lemma unique_In (l : list K) (x : K) : In x (unique eqb l) <-> In x l.
Proof.
  induction l as [|a l IH]; simpl; [tauto|].
  rewrite filter_In, IH, negb_true_iff, eqb_neq.
  split.
  - intros [H|[H _]]; auto.
  - intros [H|H]; auto. destruct (eqb a x) eqn:E.
    + left. now apply eqb_eq.
    + right. split; auto. now apply eqb_neq.
Qed.

Lemma unique_NoDup (l : list K) : NoDup (unique eqb l).
Proof.
  induction l as [|a l IH]; simpl; constructor.
  - rewrite filter_In, negb_true_iff, eqb_neq. intros [_ H]. now apply H.
  - now apply NoDup_filter.
Qed.

(** A key that occurs once is selected once. *)
Lemma filter_key_NoDup (k : K) (l : list K) :
  NoDup l -> In k l -> filter (fun y => eqb k y) l = [k].
Proof.
  induction 1 as [|a l Hn Hd IH]; simpl; [tauto|].
  intros [->|Hin].
  - rewrite eqb_refl'. f_equal. apply filter_none.
    intros x Hx. apply eqb_neq. intros ->. contradiction.
  - assert (eqb k a = false) as -> by (apply eqb_neq; intros ->; contradiction).
    now apply IH.
Qed.

Lemma get_group_tabulate {R : Type} (f : K -> R) (k : K) (ks : list K) :
  get_group eqb k (map (fun x => (x, f x)) ks) = map f (filter (fun y => eqb k y) ks).
Proof.
  unfold get_group. induction ks as [|a ks IH]; simpl; auto.
  destruct (eqb k a); simpl; now rewrite IH.
Qed.

Lemma get_group_map_values {V W : Type} (f : V -> W) (k : K) (rows : list (K * V)) :
  get_group eqb k (map (fun kv => (fst kv, f (snd kv))) rows)
  = map f (get_group eqb k rows).
Proof.
  unfold get_group. induction rows as [|[a v] rows IH]; simpl; auto.
  destruct (eqb k a); simpl; now rewrite IH.
Qed.

(** Joining keys onto a table that has one row for each of them keeps the
    keys as they are and attaches the row of each. *)
Lemma merge_left_tabulate {R : Type} (f : K -> R) (left ks : list K) :
  NoDup ks -> incl left ks ->
  merge_left eqb left (map (fun x => (x, f x)) ks)
  = map (fun k => (k, Some (f k))) left.
Proof.
  intros Hd. induction left as [|a left IH]; intros Hi; simpl; auto.
  rewrite get_group_tabulate, filter_key_NoDup; auto.
  - simpl. f_equal. apply IH. intros x Hx. apply Hi. now right.
  - apply Hi. now left.
Qed.

Lemma indicator_absent (a : K) (n : nat) (ks : list K) :
  ~ In a ks -> list_sum (map (fun k => if eqb k a then n else 0) ks) = 0.
Proof.
  induction ks as [|x ks IH]; simpl; auto. intros H.
  assert (eqb x a = false) as -> by (apply eqb_neq; intros ->; apply H; now left).
  apply IH. intros Hin. apply H. now right.
Qed.

Lemma indicator_once (a : K) (n : nat) (ks : list K) :
  NoDup ks -> In a ks -> list_sum (map (fun k => if eqb k a then n else 0) ks) = n.
Proof.
  induction 1 as [|x ks Hn Hd IH]; simpl; [tauto|].
  intros [->|Hin].
  - rewrite eqb_refl', indicator_absent; auto.
  - assert (eqb x a = false) as -> by (apply eqb_neq; intros ->; contradiction).
    now apply IH.
Qed.

(** Counting group by group counts every row once. *)
Lemma group_counts_total {V : Type} (w : V -> bool) (ks : list K) (rows : list (K * V)) :
  NoDup ks -> incl (map fst rows) ks ->
  list_sum (map (fun k => List.length (filter w (get_group eqb k rows))) ks)
  = List.length (filter w (map snd rows)).
Proof.
  intros Hd. induction rows as [|[a v] rows IH]; intros Hi.
  - simpl. clear. induction ks; simpl; auto.
  - assert (Ha : In a ks) by (apply Hi; now left).
    assert (Hr : incl (map fst rows) ks) by (intros x Hx; apply Hi; now right).
    specialize (IH Hr).
    set (one := if w v then 1 else 0).
    transitivity (list_sum (map (fun k =>
        (if eqb k a then one else 0)
        + List.length (filter w (get_group eqb k rows))) ks)).
    + f_equal. apply map_ext. intros k. unfold get_group, one. simpl.
      destruct (eqb k a); simpl; auto. destruct (w v); simpl; auto.
    + rewrite list_sum_pointwise, IH, indicator_once by assumption.
      simpl. unfold one. destruct (w v); simpl; lia.
Qed.
End KeyFacts.

(** ** Sums of floats *)

Lemma fadd_comm (x y : float) : fadd x y = fadd y x.
Proof.
  destruct x as [a|s|], y as [b|t|]; simpl; auto.
  - f_equal. apply Qred_complete. ring.
  - destruct s, t; reflexivity.
Qed.

Lemma fadd_assoc (x y z : float) : fadd x (fadd y z) = fadd (fadd x y) z.
Proof.
  destruct x as [a|s|], y as [b|t|], z as [c|u|]; simpl; auto.
  - f_equal. apply Qred_complete. rewrite !Qred_correct. ring.
  - destruct (Bool.eqb t u); reflexivity.
  - destruct (Bool.eqb s t); reflexivity.
  - destruct s, t, u; reflexivity.
  - destruct (Bool.eqb s t); reflexivity.
Qed.

Lemma fadd_swap (x y z : float) : fadd x (fadd y z) = fadd y (fadd x z).
Proof. now rewrite !fadd_assoc, (fadd_comm x y). Qed.

Lemma dropnan_perm (l l' : list float) :
  Permutation l l' -> Permutation (dropnan l) (dropnan l').
Proof.
  unfold dropnan. induction 1; simpl.
  - constructor.
  - destruct (negb (isnan x)); auto.
  - destruct (negb (isnan x)), (negb (isnan y)); auto. constructor.
  - etransitivity; eauto.
Qed.

(** The sum of a column does not depend on the order of its rows. *)
Lemma nansum_perm (l l' : list float) :
  Permutation l l' -> nansum l = nansum l'.
Proof.
  intros H. apply dropnan_perm in H. unfold nansum.
  induction H; simpl; auto.
  - now rewrite IHPermutation.
  - apply fadd_swap.
  - congruence.
Qed.

Lemma nansum_finite (qs : list Q) :
  nansum (map FNum qs) = FNum (Qred (Qsum qs)).
Proof.
  unfold nansum, dropnan. induction qs as [|q qs IH]; [reflexivity|].
  cbn [map filter isnan negb fold_right]. rewrite IH. cbn [fadd Qsum fold_right].
  f_equal. apply Qred_complete. rewrite Qred_correct. reflexivity.
Qed.

Lemma all_finite (l : list float) :
  Forall (fun x => isfinite x = true) l -> exists qs, l = map FNum qs.
Proof.
  induction 1 as [|x l Hx _ [qs ->]].
  - now exists [].
  - destruct x as [q| |]; try discriminate. now exists (q :: qs).
Qed.

Lemma Qred_zero (q : Q) : (q == 0)%Q -> Qred q = 0%Q.
Proof. intros H. now rewrite (Qred_complete _ _ H). Qed.

Lemma is_zero_iff (q : Q) : is_zero q = true <-> (q == 0)%Q.
Proof.
  unfold is_zero, Qeq. simpl. rewrite Z.eqb_eq. lia.
Qed.

(** ** Frames *)

Lemma get_loc_None (col : string) (cols : list string) :
  get_loc col cols = None <-> ~ In col cols.
Proof.
  induction cols as [|c cols IH]; simpl; [tauto|].
  destruct (String.eqb_spec col c) as [->|Hne].
  - split; [discriminate|]. intros H. exfalso. apply H. now left.
  - destruct (get_loc col cols); simpl.
    + split; [discriminate|]. intros H. exfalso.
      assert (N : ~ In col cols) by tauto. apply IH in N. discriminate.
    + split; auto. intros _ [E|H]; [congruence|]. now apply IH.
Qed.

Lemma getitem_None (df : DataFrame) (col : string) :
  getitem df col = None <-> ~ In col (columns df).
Proof.
  rewrite <- get_loc_None. unfold getitem.
  destruct (get_loc col (columns df)); simpl; split; intros H;
    solve [discriminate H | reflexivity].
Qed.

Lemma getitem_length (df : DataFrame) (col : string) (s : Series) :
  getitem df col = Some s -> List.length s = len df.
Proof.
  unfold getitem, len. destruct (get_loc col (columns df)); simpl; [|discriminate].
  intros [= <-]. apply length_map.
Qed.

Lemma existsb_eqb_In (col : string) (cols : list string) :
  existsb (String.eqb col) cols = true <-> In col cols.
Proof.
  rewrite existsb_exists. split.
  - intros (x & Hx & E). apply String.eqb_eq in E. now subst.
  - intros H. exists col. split; auto. apply String.eqb_refl.
Qed.

Lemma missing_columns_spec (df : DataFrame) (col : string) :
  In col (missing_columns df) <-> In col required_columns /\ ~ In col (columns df).
Proof.
  unfold missing_columns. rewrite filter_In, negb_true_iff.
  rewrite <- (existsb_eqb_In col (columns df)). destruct (existsb (String.eqb col) (columns df)).
  - split; intros [H1 H2]; [discriminate | exfalso; now apply H2].
  - split; intros [H1 H2]; split; auto.
Qed.

Lemma present_when_none_missing (df : DataFrame) (col : string) :
  missing_columns df = [] -> In col required_columns ->
  exists s, getitem df col = Some s.
Proof.
  intros Hm Hc. destruct (getitem df col) eqn:E; eauto.
  apply getitem_None in E.
  assert (In col (missing_columns df)) by (apply missing_columns_spec; auto).
  rewrite Hm in H. contradiction.
Qed.

(** The cleaned columns in terms of the raw ones. *)
Lemma clean_inv (df : DataFrame) (loans : Loans) :
  clean df = Some loans ->
  exists dates amounts types ids,
    getitem df "Date_Granted" = Some dates /\
    getitem df "Loan_Amount" = Some amounts /\
    getitem df "Loan_Type" = Some types /\
    getitem df "Loan_ID" = Some ids /\
    Loan_ID loans = ids /\
    Loan_Amount loans = fillna (FNum 0) (to_numeric amounts) /\
    Date_Granted loans = to_datetime dates /\
    Loan_Type loans = map (fun s => lower (strip s)) (astype_str types).
Proof.
  unfold clean.
  destruct (getitem df "Date_Granted") as [dates|]; [|discriminate].
  destruct (getitem df "Loan_Amount") as [amounts|]; [|discriminate].
  destruct (getitem df "Loan_Type") as [types|]; [|discriminate].
  destruct (getitem df "Loan_ID") as [ids|]; [|discriminate].
  intros [= <-]. exists dates, amounts, types, ids. simpl. repeat split; reflexivity.
Qed.

Lemma clean_total (df : DataFrame) :
  missing_columns df = [] -> exists loans, clean df = Some loans.
Proof.
  intros Hm. unfold clean.
  destruct (present_when_none_missing df "Date_Granted" Hm) as [d ->];
    [simpl; tauto|].
  destruct (present_when_none_missing df "Loan_Amount" Hm) as [a ->];
    [simpl; tauto|].
  destruct (present_when_none_missing df "Loan_Type" Hm) as [t ->];
    [simpl; tauto|].
  destruct (present_when_none_missing df "Loan_ID" Hm) as [i ->];
    [simpl; tauto|].
  eauto.
Qed.

Lemma clean_lengths (df : DataFrame) (loans : Loans) :
  clean df = Some loans ->
  List.length (Loan_ID loans) = len df /\
  List.length (Loan_Amount loans) = len df /\
  List.length (Date_Granted loans) = len df /\
  List.length (Loan_Type loans) = len df.
Proof.
  intros H. destruct (clean_inv df loans H)
    as (d & a & t & i & Hd & Ha & Ht & Hi & -> & -> & -> & ->).
  unfold fillna, to_numeric, to_datetime, astype_str. rewrite !length_map.
  repeat split; eauto using getitem_length.
Qed.

Lemma clean_aligned (df : DataFrame) (loans : Loans) :
  clean df = Some loans -> aligned loans.
Proof.
  intros H. destruct (clean_lengths df loans H) as (H1 & H2 & H3 & H4).
  unfold aligned. rewrite H1, H2, H3, H4. auto.
Qed.

(** ** The per-type tables *)

Lemma sorted_types_NoDup (l : list string) :
  NoDup (StringSort.sort (unique String.eqb l)).
Proof.
  eapply Permutation_NoDup; [apply StringSort.Permuted_sort|].
  apply unique_NoDup, String.eqb_eq.
Qed.

Lemma sorted_types_In (l : list string) (t : string) :
  In t (StringSort.sort (unique String.eqb l)) <-> In t l.
Proof.
  rewrite <- (unique_In String.eqb String.eqb_eq l t). split.
  - apply Permutation_in. symmetry. apply StringSort.Permuted_sort.
  - apply Permutation_in. apply StringSort.Permuted_sort.
Qed.

Lemma by_type_table {V R : Type} (agg : list V -> R) (df : Loans) (values : list V) :
  List.length (Loan_Type df) = List.length values ->
  by_type agg df values
  = map (fun t => (t, agg (of_type df values t)))
        (StringSort.sort (unique String.eqb (Loan_Type df))).
Proof.
  intros H. unfold by_type, groupby_agg, of_type. now rewrite map_fst_combine.
Qed.

Lemma joined_table {V R : Type} (agg : list V -> R) (dflt : R) (df : Loans) (values : list V) :
  List.length (Loan_Type df) = List.length values ->
  map (fun '(t, c) => (t, match c with Some n => n | None => dflt end))
      (merge_left String.eqb (all_loan_types df) (by_type agg df values))
  = map (fun t => (t, agg (of_type df values t))) (all_loan_types df).
Proof.
  intros H. rewrite by_type_table by assumption.
  rewrite (merge_left_tabulate String.eqb String.eqb_eq).
  - rewrite map_map. reflexivity.
  - apply sorted_types_NoDup.
  - intros t Ht. apply sorted_types_In.
    exact (proj1 (unique_In String.eqb String.eqb_eq _ _) Ht).
Qed.

Lemma product_count_table (df : Loans) :
  aligned df ->
  product_count df
  = map (fun t => (t, count (of_type df (Loan_ID df) t))) (all_loan_types df).
Proof. intros (H & _). apply joined_table. auto. Qed.

Lemma product_amount_table (df : Loans) :
  aligned df ->
  product_amount df
  = map (fun t => (t, nansum (of_type df (Loan_Amount df) t))) (all_loan_types df).
Proof. intros (_ & H & _). apply joined_table. auto. Qed.

Lemma combine_snd_snd {A B C : Type} (ks : list A) (l : list B) (l' : list C) :
  List.length l = List.length ks -> List.length l' = List.length ks ->
  combine ks l' = map (fun kv => (fst kv, snd (snd kv))) (combine ks (combine l l')).
Proof.
  revert l l'. induction ks as [|k ks IH]; intros [|b l] [|c l'] H H';
    simpl in *; try discriminate; auto.
  f_equal. apply IH; lia.
Qed.

Lemma of_type_amounts (df : Loans) (t : string) :
  aligned df ->
  map snd (of_type df (combine (Loan_ID df) (Loan_Amount df)) t)
  = of_type df (Loan_Amount df) t.
Proof.
  intros (H1 & H2 & _). unfold of_type.
  rewrite (combine_snd_snd (Loan_Type df) (Loan_ID df) (Loan_Amount df)) by assumption.
  now rewrite (get_group_map_values String.eqb).
Qed.

Lemma of_type_ids (df : Loans) (t : string) :
  aligned df ->
  map fst (of_type df (combine (Loan_ID df) (Loan_Amount df)) t)
  = of_type df (Loan_ID df) t.
Proof.
  intros (H1 & H2 & _). unfold of_type.
  assert (E : combine (Loan_Type df) (Loan_ID df)
              = map (fun kv => (fst kv, fst (snd kv)))
                    (combine (Loan_Type df) (combine (Loan_ID df) (Loan_Amount df)))).
  { revert H1 H2. generalize (Loan_Type df) (Loan_ID df) (Loan_Amount df).
    induction l as [|k ks IH]; intros [|b l] [|c l'] H H';
      simpl in *; try discriminate; auto.
    f_equal. apply IH; lia. }
  rewrite E. now rewrite (get_group_map_values String.eqb).
Qed.

Lemma aggregate_table (df : Loans) :
  aligned df ->
  aggregate df
  = map (fun t =>
           {| key := t;
              Total_Loans := count (of_type df (Loan_ID df) t);
              Total_Amount := nansum (of_type df (Loan_Amount df) t);
              Avg_Amount := nanmean (of_type df (Loan_Amount df) t);
              Max_Amount := nanmax (of_type df (Loan_Amount df) t);
              Min_Amount := nanmin (of_type df (Loan_Amount df) t);
              Portfolio_Percentage := FNaN |})
        (StringSort.sort (unique String.eqb (Loan_Type df))).
Proof.
  intros Ha. unfold aggregate. rewrite by_type_table.
  - rewrite map_map. apply map_ext. intros t.
    now rewrite of_type_amounts, of_type_ids.
  - destruct Ha as (H1 & H2 & _). rewrite length_combine. lia.
Qed.

Lemma stats_keys (df : Loans) :
  aligned df ->
  map key (product_stats df) = StringSort.sort (unique String.eqb (Loan_Type df)).
Proof.
  intros Ha. unfold product_stats. rewrite aggregate_table by assumption.
  rewrite !map_map. simpl. apply map_id.
Qed.

Lemma stats_totals (df : Loans) :
  aligned df ->
  map Total_Amount (product_stats df)
  = map (fun t => nansum (of_type df (Loan_Amount df) t))
        (StringSort.sort (unique String.eqb (Loan_Type df))).
Proof.
  intros Ha. unfold product_stats. rewrite aggregate_table by assumption.
  rewrite !map_map. reflexivity.
Qed.

Lemma aggregate_totals (df : Loans) :
  map Total_Amount (aggregate df) = map Total_Amount (product_stats df).
Proof. unfold product_stats. rewrite map_map. reflexivity. Qed.

(* ------------------------------------------------------------------ *)
(** * The claims *)

(** ** Validation *)

Lemma missing_columns_NoDup (df : DataFrame) : NoDup (missing_columns df).
Proof.
  unfold missing_columns. apply NoDup_filter. unfold required_columns.
  repeat constructor; simpl; intuition discriminate.
Qed.

(** C4. A frame that lacks a required column ends in the error box: the
    columns reported are exactly the required ones that are absent, each
    once, and none of the four tables is produced. *)
Theorem C4_missing_columns_halt (df : DataFrame) :
  (exists col, In col required_columns /\ ~ In col (columns df)) ->
  main df = MissingColumns (missing_columns df) /\
  (forall col, In col (missing_columns df)
               <-> In col required_columns /\ ~ In col (columns df)) /\
  NoDup (missing_columns df) /\
  (forall r, main df <> Dashboard r).
Proof.
  intros (col & Hreq & Habs).
  assert (Hin : In col (missing_columns df)) by (apply missing_columns_spec; auto).
  assert (Hmain : main df = MissingColumns (missing_columns df)).
  { unfold main. destruct (missing_columns df) eqn:E; [contradiction|reflexivity]. }
  split; [exact Hmain|]. split; [apply missing_columns_spec|].
  split; [apply missing_columns_NoDup|].
  intros r. rewrite Hmain. discriminate.
Qed.

Lemma C4_missing_columns_halt_witness :
  (exists col, In col required_columns /\ ~ In col (columns Samples.no_type_column)) /\
  main Samples.no_type_column = MissingColumns ["Loan_Type"].
Proof.
  assert (H : exists col, In col required_columns
                          /\ ~ In col (columns Samples.no_type_column)).
  { exists "Loan_Type". split; [simpl; tauto|].
    simpl. intros [E|[E|[E|[]]]]; discriminate E. }
  split; [exact H|].
  exact (proj1 (C4_missing_columns_halt Samples.no_type_column H)).
Defined.

(** With the four columns present the script reaches the four tables: the
    KeyError outcome does not occur. *)
Lemma main_dashboard (df : DataFrame) :
  missing_columns df = [] ->
  exists loans, clean df = Some loans /\ main df = Dashboard (analyse loans).
Proof.
  intros Hm. destruct (clean_total df Hm) as [loans Hc].
  exists loans. split; [exact Hc|]. unfold main. now rewrite Hm, Hc.
Qed.

(** ** Cleaning *)

Lemma nth_error_fillna (v : float) (l : list float) (i : nat) :
  nth_error (fillna v l) i
  = option_map (fun x => if isnan x then v else x) (nth_error l i).
Proof. apply nth_error_map. Qed.






(** ** The per-type reports *)

Lemma count_keys (df : Loans) :
  aligned df -> map fst (product_count df) = all_loan_types df.
Proof.
  intros Ha. rewrite product_count_table by assumption.
  rewrite map_map. simpl. apply map_id.
Qed.

Lemma amount_keys (df : Loans) :
  aligned df -> map fst (product_amount df) = all_loan_types df.
Proof.
  intros Ha. rewrite product_amount_table by assumption.
  rewrite map_map. simpl. apply map_id.
Qed.

Lemma all_loan_types_In (df : Loans) (t : string) :
  In t (all_loan_types df) <-> In t (Loan_Type df).
Proof. apply unique_In, String.eqb_eq. Qed.



(** C6. The rows of the count report are the distinct cleaned loan types, in
    order of first appearance and each once; every type of the data has its
    row, with the number of its loans that carry an identifier, which may be
    zero. *)
Theorem C6_count_rows_are_the_distinct_types (df : DataFrame) (loans : Loans) :
  clean df = Some loans ->
  map fst (product_count loans) = unique String.eqb (Loan_Type loans) /\
  NoDup (map fst (product_count loans)) /\
  (forall t, In t (map fst (product_count loans)) <-> In t (Loan_Type loans)) /\
  (forall t, In t (Loan_Type loans) ->
             In (t, count (of_type loans (Loan_ID loans) t)) (product_count loans)).
Proof.
  intros Hc. assert (Ha := clean_aligned df loans Hc).
  rewrite count_keys by assumption. split; [reflexivity|].
  split; [apply unique_NoDup, String.eqb_eq|].
  split; [apply all_loan_types_In|].
  intros t Ht. rewrite product_count_table by assumption.
  apply in_map_iff. exists t. split; auto. now apply all_loan_types_In.
Qed.

Lemma C6_count_rows_are_the_distinct_types_witness :
  exists loans,
    clean Samples.missing_id = Some loans /\
    product_count loans = [("auto", 1); ("home", 0)] /\
    NoDup (map fst (product_count loans)).
Proof.
  eexists. split; [reflexivity|]. split; [reflexivity|].
  exact (proj1 (proj2 (C6_count_rows_are_the_distinct_types
                         Samples.missing_id _ eq_refl))).
Defined.

Lemma count_all_present (s : Series) :
  forallb notna s = true -> count s = List.length s.
Proof.
  unfold count. induction s as [|c s IH]; simpl; auto.
  rewrite andb_true_iff. intros [-> H]. simpl. now rewrite IH.
Qed.

(** C2, as the code has it. The per-type counts add up to the number of rows
    whose Loan_ID is not null, which is the number of rows when no identifier
    is missing. *)
Theorem C2_counts_add_up_to_identified_rows (df : DataFrame) (loans : Loans) :
  clean df = Some loans ->
  list_sum (map snd (product_count loans)) = count (Loan_ID loans) /\
  (forallb notna (Loan_ID loans) = true ->
   list_sum (map snd (product_count loans)) = len df).
Proof.
  intros Hc. assert (Ha := clean_aligned df loans Hc).
  assert (E : list_sum (map snd (product_count loans)) = count (Loan_ID loans)).
  { rewrite product_count_table by assumption. rewrite map_map. simpl.
    unfold count, of_type, all_loan_types.
    rewrite (group_counts_total String.eqb String.eqb_eq notna).
    - rewrite map_snd_combine; [reflexivity|]. destruct Ha as (H & _). auto.
    - apply unique_NoDup, String.eqb_eq.
    - intros t Ht. apply (unique_In String.eqb String.eqb_eq).
      rewrite map_fst_combine in Ht; auto. destruct Ha as (H & _). auto. }
  split; [exact E|].
  intros Hall. rewrite E, count_all_present by assumption.
  apply (clean_lengths df loans Hc).
Qed.

Lemma C2_counts_add_up_to_identified_rows_witness :
  exists loans,
    clean Samples.three_loans = Some loans /\
    list_sum (map snd (product_count loans)) = 3.
Proof.
  eexists. split; [reflexivity|].
  exact (proj2 (C2_counts_add_up_to_identified_rows Samples.three_loans _ eq_refl)
               eq_refl).
Defined.

(** C2 as stated fails: a row without identifier is a row of the cleaned data
    and is counted by no type. *)
Lemma C2_row_without_id_not_counted :
  exists loans,
    clean Samples.missing_id = Some loans /\
    List.length (Loan_Type loans) = 2 /\
    list_sum (map snd (product_count loans)) = 1 /\
    list_sum (map snd (product_count loans)) <> List.length (Loan_Type loans).
Proof.
  eexists. split; [reflexivity|]. repeat split. discriminate.
Qed.

(** ** Totals and shares *)

Lemma fsum_perm (l l' : list float) : Permutation l l' -> fsum l = fsum l'.
Proof.
  unfold fsum. induction 1; simpl; auto.
  - now rewrite IHPermutation.
  - apply fadd_swap.
  - congruence.
Qed.



Lemma dropnan_finite (qs : list Q) : dropnan (map FNum qs) = map FNum qs.
Proof.
  unfold dropnan. induction qs as [|q qs IH]; [reflexivity|].
  cbn [map filter isnan negb]. now rewrite IH.
Qed.

Lemma fsum_finite (qs : list Q) : fsum (map FNum qs) = nansum (map FNum qs).
Proof. unfold nansum. now rewrite dropnan_finite. Qed.

Lemma nansum_is_finite (l : list float) :
  Forall (fun x => isfinite x = true) l -> isfinite (nansum l) = true.
Proof.
  intros H. destruct (all_finite l H) as [qs ->]. now rewrite nansum_finite.
Qed.

Lemma of_type_incl {V : Type} (df : Loans) (values : list V) (t : string) :
  incl (of_type df values t) values.
Proof.
  unfold of_type, get_group. intros x Hx. apply in_map_iff in Hx.
  destruct Hx as ([k v] & <- & Hf). apply filter_In in Hf.
  destruct Hf as [Hf _]. now apply in_combine_r in Hf.
Qed.

Lemma totals_finite (df : Loans) :
  aligned df ->
  Forall (fun x => isfinite x = true) (Loan_Amount df) ->
  Forall (fun x => isfinite x = true) (map Total_Amount (aggregate df)).
Proof.
  intros Ha Hf. rewrite aggregate_totals, stats_totals by assumption.
  apply Forall_forall. intros x Hx. apply in_map_iff in Hx.
  destruct Hx as (t & <- & _). apply nansum_is_finite.
  apply Forall_forall. intros y Hy. apply of_type_incl in Hy.
  now apply (proj1 (Forall_forall _ _) Hf).
Qed.

Lemma Qsum_shares (T : Q) (ts : list Q) :
  (Qsum (map (fun t => Qred (Qred (t / T) * inject_Z 100)) ts)
   == Qsum ts * / T * inject_Z 100)%Q.
Proof.
  induction ts as [|t ts IH]; simpl.
  - ring.
  - rewrite IH, !Qred_correct. unfold Qdiv. ring.
Qed.

(** Shares of finite totals whose sum is not zero add up to 100. *)
Lemma shares_add_up (ts : list Q) :
  nansum (map FNum ts) <> FNum 0 ->
  map (fun x => fmul (fdiv x (nansum (map FNum ts))) (of_Z 100)) (map FNum ts)
  = map FNum (map (fun t => Qred (Qred (t / Qred (Qsum ts)) * inject_Z 100)) ts)
  /\ Qred (Qsum (map (fun t => Qred (Qred (t / Qred (Qsum ts)) * inject_Z 100)) ts))
     = inject_Z 100.
Proof.
  rewrite nansum_finite. intros Hnz.
  assert (Hq : ~ (Qsum ts == 0)%Q).
  { intros E. apply Hnz. f_equal. now apply Qred_zero. }
  assert (Hz : is_zero (Qred (Qsum ts)) = false).
  { destruct (is_zero (Qred (Qsum ts))) eqn:E; auto.
    apply is_zero_iff in E. rewrite Qred_correct in E. contradiction. }
  split.
  - rewrite !map_map. apply map_ext. intros t. simpl. now rewrite Hz.
  - change (inject_Z 100) with (Qred (inject_Z 100)) at 2.
    apply Qred_complete. rewrite Qsum_shares, Qred_correct. now field.
Qed.




(** With a grand total of zero no share is a number: each is NaN or an
    infinity. *)
Lemma zero_total_shares (r : StatsRow) :
  isfinite (portfolio_percentage (FNum 0) r) = false.
Proof.
  unfold portfolio_percentage. destruct (Total_Amount r) as [q|s|]; simpl; auto.
  destruct (is_zero q); reflexivity.
Qed.

(** C1 on the code: with amounts that are all zero the grand total is zero
    and the share of every type is 0/0, which is NaN and not zero. *)
Theorem C1_zero_total_gives_nan :
  exists loans,
    clean Samples.zero_amounts = Some loans /\
    main Samples.zero_amounts = Dashboard (analyse loans) /\
    Loan_Amount loans = [FNum 0; FNum 0] /\
    total_loans_disbursed loans = FNum 0 /\
    map key (product_stats loans) = ["auto"; "home"] /\
    map Portfolio_Percentage (product_stats loans) = [FNaN; FNaN].
Proof.
  eexists. split; [reflexivity|]. repeat split; reflexivity.
Qed.

(** ** The monthly trend *)

Lemma month_keys (dates : list (option Timestamp)) (amounts : list float) (p : Period) :
  List.length dates = List.length amounts ->
  In p (map fst (dropna_keys
                   (combine (map (option_map to_period_M) dates) amounts)))
  <-> exists t, In (Some t) dates /\ to_period_M t = p.
Proof.
  revert amounts. induction dates as [|d dates IH]; intros [|a amounts] H;
    simpl in *; try discriminate.
  - split; [tauto|]. intros (t & [] & _).
  - injection H as H. specialize (IH amounts H). destruct d as [t|]; simpl.
    + rewrite IH. split.
      * intros [E|(t' & Hin & E)]; [exists t|exists t']; auto.
      * intros (t' & [E|Hin] & E'); [left; congruence|right; eauto].
    + rewrite IH. split.
      * intros (t' & Hin & E). eauto.
      * intros (t' & [E|Hin] & E'); [discriminate|eauto].
Qed.

Lemma month_group (dates : list (option Timestamp)) (amounts : list float) (p : Period) :
  get_group Z.eqb p (dropna_keys
                       (combine (map (option_map to_period_M) dates) amounts))
  = map snd (filter (fun r => in_month p (fst r)) (combine dates amounts)).
Proof.
  unfold get_group. revert amounts.
  induction dates as [|d dates IH]; intros [|a amounts]; simpl; auto.
  destruct d as [t|]; simpl; [|apply IH].
  destruct (Z.eqb p (to_period_M t)); simpl; now rewrite IH.
Qed.

Lemma distinct_sorted_increasing (l : list Z) :
  StronglySorted (fun x y => is_true (x <=? y)%Z) l -> NoDup l ->
  StronglySorted Z.lt l.
Proof.
  induction 1 as [|x l Hs IH Hx]; intros Hd; constructor.
  - apply IH. now inversion Hd.
  - inversion Hd as [|? ? Hn _]; subst.
    rewrite Forall_forall in *. intros y Hy.
    specialize (Hx y Hy). unfold is_true in Hx. apply Z.leb_le in Hx.
    assert (x <> y) by (intros ->; contradiction). lia.
Qed.

Lemma sorted_months_increasing (l : list Z) :
  StronglySorted Z.lt (ZSort.sort (unique Z.eqb l)).
Proof.
  apply distinct_sorted_increasing.
  - apply ZSort.StronglySorted_sort. intros x y z.
    unfold is_true, ZOrder.leb. rewrite !Z.leb_le. lia.
  - eapply Permutation_NoDup; [apply ZSort.Permuted_sort|].
    apply unique_NoDup, Z.eqb_eq.
Qed.

Lemma sorted_months_In (l : list Z) (p : Z) :
  In p (ZSort.sort (unique Z.eqb l)) <-> In p l.
Proof.
  rewrite <- (unique_In Z.eqb Z.eqb_eq l p). split.
  - apply Permutation_in. symmetry. apply ZSort.Permuted_sort.
  - apply Permutation_in. apply ZSort.Permuted_sort.
Qed.

Lemma monthly_groups_table (df : Loans) :
  monthly_groups df
  = map (fun p => (p, nansum (amounts_in_month df p)))
        (map fst (monthly_groups df)).
Proof.
  unfold monthly_groups, groupby_agg, Month, amounts_in_month.
  rewrite !map_map. simpl. apply map_ext. intros p. now rewrite month_group.
Qed.

(** *** The labels YYYY-MM *)

Lemma digit_of_range (c : ascii) (d : Z) :
  digit_of c = Some d -> (0 <= d <= 9)%Z.
Proof.
  unfold digit_of, between. destruct (_ && _)%bool eqn:E; [|discriminate].
  intros [= <-]. apply andb_true_iff in E. destruct E as [E1 E2].
  apply Nat.leb_le in E1, E2. lia.
Qed.

Lemma nonzero_digit_range (c : ascii) (d : Z) :
  nonzero_digit c = Some d -> (1 <= d <= 9)%Z.
Proof.
  unfold nonzero_digit. destruct (digit_of c) as [x|] eqn:E; [|discriminate].
  apply digit_of_range in E. destruct (Z.eqb_spec x 0); [discriminate|].
  intros [= <-]. lia.
Qed.

Lemma two_digits_range (lo hi : Z) (c1 c2 : ascii) (v : Z) :
  two_digits lo hi c1 c2 = Some v -> (lo <= v <= hi)%Z.
Proof.
  unfold two_digits. destruct (digit_of c1), (digit_of c2); try discriminate.
  cbv zeta. destruct (_ && _)%bool eqn:E; [|discriminate]. intros H.
  assert (Hv : (10 * z + z0)%Z = v) by congruence. rewrite <- Hv.
  apply andb_true_iff in E. destruct E as [E1 E2].
  apply Z.leb_le in E1, E2. lia.
Qed.

Lemma field_m_range (s : string) (m : Z) : field_m s = Some m -> (1 <= m <= 12)%Z.
Proof.
  destruct s as [|c1 [|c2 [|? ?]]]; simpl; try discriminate.
  - intros H. apply nonzero_digit_range in H. lia.
  - apply two_digits_range.
Qed.

Lemma field_d_range (s : string) (d : Z) : field_d s = Some d -> (1 <= d <= 31)%Z.
Proof.
  destruct s as [|c1 [|c2 [|? ?]]]; simpl; try discriminate.
  - intros H. apply nonzero_digit_range in H. lia.
  - destruct (Ascii.eqb c1 " ").
    + intros H. apply nonzero_digit_range in H. lia.
    + apply two_digits_range.
Qed.

(** A date that was read is a day of a month of a year from 1677 to 2262. *)
Lemma strptime_range (s : string) (t : Timestamp) :
  strptime s = Some t ->
  (1677 <= year t <= 2262 /\ 1 <= month t <= 12 /\ 1 <= day t <= 31)%Z.
Proof.
  unfold strptime. destruct (split_dash s) as [d [r|]]; [|discriminate].
  destruct (split_dash r) as [m [y|]]; [|discriminate].
  destruct (field_d d) as [dd|] eqn:Ed; [|discriminate].
  destruct (field_m m) as [mm|] eqn:Em; [|discriminate].
  destruct (field_Y y) as [yy|]; [|discriminate].
  apply field_d_range in Ed. apply field_m_range in Em.
  destruct (valid_date _ && in_bounds _)%bool eqn:E; [|discriminate].
  intros [= <-]. simpl. apply andb_true_iff in E. destruct E as [_ E].
  unfold in_bounds in E. simpl in E. apply andb_true_iff in E.
  destruct E as [E1 E2]. apply Z.leb_le in E1, E2. lia.
Qed.

Lemma digit_char_inj (a b : Z) :
  (0 <= a <= 9)%Z -> (0 <= b <= 9)%Z -> digit_char a = digit_char b -> a = b.
Proof.
  unfold digit_char. intros Ha Hb E.
  apply (f_equal nat_of_ascii) in E.
  rewrite !nat_ascii_embedding in E by lia. lia.
Qed.

Lemma label_inj (y m y' m' : Z) :
  (0 <= y <= 9999)%Z -> (0 <= y' <= 9999)%Z ->
  (0 <= m <= 99)%Z -> (0 <= m' <= 99)%Z ->
  (digits 4 y ++ "-" ++ digits 2 m = digits 4 y' ++ "-" ++ digits 2 m')%string ->
  y = y' /\ m = m'.
Proof.
  intros Hy Hy' Hm Hm'. cbv beta iota delta [digits append].
  intros E. injection E as E3 E2 E1 E0 M1 M0.
  apply digit_char_inj in E3, E2, E1, E0, M1, M0;
    try (match goal with |- (0 <= ?a mod 10 <= 9)%Z =>
           pose proof (Z.mod_pos_bound a 10); lia end).
  split; Z.div_mod_to_equations; lia.
Qed.

Lemma period_str_inj (p q : Period) :
  (0 <= period_year p <= 9999)%Z -> (0 <= period_year q <= 9999)%Z ->
  period_str p = period_str q -> p = q.
Proof.
  unfold period_str. intros Hp Hq E.
  apply label_inj in E; auto.
  - unfold period_year, period_month in *. destruct E as [E1 E2].
    Z.div_mod_to_equations. lia.
  - unfold period_month. Z.div_mod_to_equations. lia.
  - unfold period_month. Z.div_mod_to_equations. lia.
Qed.

Lemma period_year_of_date (t : Timestamp) :
  (1 <= month t <= 12)%Z -> period_year (to_period_M t) = year t.
Proof. unfold period_year, to_period_M. intros H. Z.div_mod_to_equations. lia. Qed.

Lemma NoDup_map_on {A B : Type} (f : A -> B) (l : list A) :
  (forall x y, In x l -> In y l -> f x = f y -> x = y) ->
  NoDup l -> NoDup (map f l).
Proof.
  intros Hinj. induction 1 as [|a l Hn Hd IH]; simpl; constructor.
  - intros Hin. apply in_map_iff in Hin. destruct Hin as (x & E & Hx).
    apply Hinj in E; [subst; contradiction | now right | now left].
  - apply IH. intros x y Hx Hy. apply Hinj; now right.
Qed.

Lemma StronglySorted_lt_NoDup (l : list Z) : StronglySorted Z.lt l -> NoDup l.
Proof.
  induction 1 as [|x l Hs IH Hx]; constructor; auto.
  intros Hin. rewrite Forall_forall in Hx. specialize (Hx x Hin). lia.
Qed.

Lemma cleaned_dates_range (df : DataFrame) (loans : Loans) (t : Timestamp) :
  clean df = Some loans -> In (Some t) (Date_Granted loans) ->
  (1677 <= year t <= 2262 /\ 1 <= month t <= 12 /\ 1 <= day t <= 31)%Z.
Proof.
  intros Hc Hin. destruct (clean_inv df loans Hc)
    as (d & _ & _ & _ & _ & _ & _ & _ & _ & _ & E3 & _).
  rewrite E3 in Hin. unfold to_datetime in Hin. apply in_map_iff in Hin.
  destruct Hin as (c & E & _). now apply strptime_range in E.
Qed.



(* ------------------------------------------------------------------ *)
(** * Further properties of the script *)

(** ** Outcomes of an upload *)


Lemma sort_nil_string : StringSort.sort [] = [].
Proof. reflexivity. Qed.

Lemma sort_nil_Z : ZSort.sort [] = [].
Proof. reflexivity. Qed.

(** A file with the four columns and no record gives four empty tables. *)
Theorem empty_upload_gives_empty_tables (df : DataFrame) :
  missing_columns df = [] -> records df = [] ->
  main df = Dashboard no_rows.
Proof.
  intros Hm Hr. destruct (main_dashboard df Hm) as (loans & Hc & ->).
  destruct (clean_lengths df loans Hc) as (L1 & L2 & L3 & L4).
  unfold len in *. rewrite Hr in *. simpl in *.
  destruct loans as [ids amounts dates types]. simpl in *.
  apply length_zero_iff_nil in L1, L2, L3, L4. subst.
  reflexivity.
Qed.

Lemma empty_upload_gives_empty_tables_witness :
  main Edge.header_only = Dashboard no_rows.
Proof.
  exact (empty_upload_gives_empty_tables Edge.header_only eq_refl eq_refl).
Defined.

Lemma missing_columns_ext (df df' : DataFrame) :
  (forall col, In col required_columns -> getitem df col = getitem df' col) ->
  missing_columns df = missing_columns df'.
Proof.
  intros H. unfold missing_columns. apply filter_ext_in. intros col Hc. f_equal.
  specialize (H col Hc).
  destruct (existsb (String.eqb col) (columns df)) eqn:E,
           (existsb (String.eqb col) (columns df')) eqn:E'; auto.
  - apply existsb_eqb_In in E.
    assert (N : ~ In col (columns df')).
    { intros Hin. apply existsb_eqb_In in Hin. congruence. }
    apply getitem_None in N. rewrite N in H. apply getitem_None in H. contradiction.
  - apply existsb_eqb_In in E'.
    assert (N : ~ In col (columns df)).
    { intros Hin. apply existsb_eqb_In in Hin. congruence. }
    apply getitem_None in N. rewrite N in H. symmetry in H.
    apply getitem_None in H. contradiction.
Qed.

(** The outcome depends on the four required columns only: other columns and
    the order of the columns in the file do not change it. *)
Theorem only_required_columns_matter (df df' : DataFrame) :
  (forall col, In col required_columns -> getitem df col = getitem df' col) ->
  main df = main df'.
Proof.
  intros H. unfold main. rewrite (missing_columns_ext df df' H).
  assert (E : clean df = clean df').
  { unfold clean. rewrite !H by (simpl; tauto). reflexivity. }
  now rewrite E.
Qed.

Lemma only_required_columns_matter_witness :
  main Edge.with_branch = main Samples.three_loans.
Proof.
  apply only_required_columns_matter.
  intros col [<-|[<-|[<-|[<-|[]]]]]; reflexivity.
Defined.

(** ** The three per-type tables against each other *)

Lemma product_stats_rows (df : Loans) (r : StatsRow) :
  aligned df -> In r (product_stats df) ->
  In (key r) (Loan_Type df) /\
  Total_Loans r = count (of_type df (Loan_ID df) (key r)) /\
  Total_Amount r = nansum (of_type df (Loan_Amount df) (key r)) /\
  Avg_Amount r = nanmean (of_type df (Loan_Amount df) (key r)) /\
  Max_Amount r = nanmax (of_type df (Loan_Amount df) (key r)) /\
  Min_Amount r = nanmin (of_type df (Loan_Amount df) (key r)) /\
  Portfolio_Percentage r
  = fmul (fdiv (Total_Amount r) (total_loans_disbursed df)) (of_Z 100).
Proof.
  intros Ha Hin. unfold product_stats in Hin. apply in_map_iff in Hin.
  destruct Hin as (a & <- & Hin). rewrite aggregate_table in Hin by assumption.
  apply in_map_iff in Hin. destruct Hin as (t & <- & Ht). simpl.
  apply (proj1 (sorted_types_In _ _)) in Ht. unfold portfolio_percentage. simpl.
  repeat split; auto.
Qed.



Lemma leb_neq_ltb (a b : string) :
  String.leb a b = true -> a <> b -> String.ltb a b = true.
Proof.
  unfold String.leb, String.ltb. intros H Hne.
  destruct (String.compare a b) eqn:E; auto.
  apply String.compare_eq_iff in E. contradiction.
Qed.

Lemma sorted_distinct_strings (l : list string) :
  Sorted (fun a b => is_true (String.leb a b)) l -> NoDup l ->
  Sorted (fun a b => String.ltb a b = true) l.
Proof.
  induction 1 as [|a l Hs IH Hh]; intros Hd; constructor.
  - apply IH. now inversion Hd.
  - inversion Hd as [|? ? Hn _]; subst. destruct Hh as [|b l' Hab]; constructor.
    apply leb_neq_ltb; auto. intros ->. apply Hn. now left.
Qed.

(** The statistics table is ordered by loan type: each key is strictly below
    the next one in the order of strings, so no type has two rows. *)
Theorem stats_rows_sorted_by_type (df : DataFrame) (loans : Loans) :
  clean df = Some loans ->
  Sorted (fun a b => String.ltb a b = true) (map key (product_stats loans)) /\
  NoDup (map key (product_stats loans)).
Proof.
  intros Hc. assert (Ha := clean_aligned df loans Hc).
  rewrite stats_keys by assumption. split.
  - apply sorted_distinct_strings.
    + apply StringSort.Sorted_sort.
    + apply sorted_types_NoDup.
  - apply sorted_types_NoDup.
Qed.

Lemma stats_rows_sorted_by_type_witness :
  exists loans,
    clean Edge.two_months = Some loans /\
    map key (product_stats loans) = ["auto"; "home"] /\
    NoDup (map key (product_stats loans)).
Proof.
  eexists. split; [reflexivity|]. split; [reflexivity|].
  exact (proj2 (stats_rows_sorted_by_type Edge.two_months _ eq_refl)).
Defined.

(** ** Sums over groups *)

Section GroupSums.
Context {K : Type}.
Variable eqb : K -> K -> bool.
Hypothesis eqb_eq : forall x y, eqb x y = true <-> x = y.

Lemma Qsum_pointwise (f g : K -> Q) (ks : list K) :
  (Qsum (map (fun k => f k + g k) ks) == Qsum (map f ks) + Qsum (map g ks))%Q.
Proof. induction ks as [|k ks IH]; simpl; [ring|]. rewrite IH. ring. Qed.

Lemma Qsum_ext (f g : K -> Q) (ks : list K) :
  (forall k, f k == g k)%Q -> (Qsum (map f ks) == Qsum (map g ks))%Q.
Proof.
  intros H. induction ks as [|k ks IH]; simpl; [reflexivity|]. now rewrite H, IH.
Qed.

Lemma Qindicator_absent (a : K) (q : Q) (ks : list K) :
  ~ In a ks -> (Qsum (map (fun k => if eqb k a then q else 0) ks) == 0)%Q.
Proof.
  induction ks as [|x ks IH]; simpl; [reflexivity|]. intros H.
  assert (eqb x a = false) as ->.
  { apply (eqb_neq eqb eqb_eq). intros ->. apply H. now left. }
  rewrite IH; [ring|]. intros Hin. apply H. now right.
Qed.

Lemma Qindicator_once (a : K) (q : Q) (ks : list K) :
  NoDup ks -> In a ks ->
  (Qsum (map (fun k => if eqb k a then q else 0) ks) == q)%Q.
Proof.
  induction 1 as [|x ks Hn Hd IH]; simpl; [tauto|].
  intros [->|Hin].
  - rewrite (eqb_refl' eqb eqb_eq), Qindicator_absent by assumption. ring.
  - assert (eqb x a = false) as ->.
    { apply (eqb_neq eqb eqb_eq). intros ->. contradiction. }
    rewrite IH by assumption. ring.
Qed.

(** Summing group by group sums every row once. *)
Lemma group_sums_total (ks : list K) (rows : list (K * Q)) :
  NoDup ks -> incl (map fst rows) ks ->
  (Qsum (map (fun k => Qsum (get_group eqb k rows)) ks) == Qsum (map snd rows))%Q.
Proof.
  intros Hd. induction rows as [|[a q] rows IH]; intros Hi.
  - simpl. clear. induction ks as [|k ks IH]; simpl; [reflexivity|].
    rewrite IH. ring.
  - assert (Ha : In a ks) by (apply Hi; now left).
    assert (Hr : incl (map fst rows) ks) by (intros x Hx; apply Hi; now right).
    specialize (IH Hr).
    rewrite (Qsum_ext _ (fun k => (if eqb k a then q else 0)
                                  + Qsum (get_group eqb k rows))%Q).
    + rewrite Qsum_pointwise, IH, Qindicator_once by assumption. reflexivity.
    + intros k. unfold get_group. simpl. destruct (eqb k a); simpl; ring.
Qed.

Lemma Qsum_Qred (f : K -> Q) (ks : list K) :
  (Qsum (map (fun k => Qred (f k)) ks) == Qsum (map f ks))%Q.
Proof. apply Qsum_ext. intros k. apply Qred_correct. Qed.

(** The same for float sums of finite values. *)
Lemma nansum_groups (ks : list K) (rows : list (K * Q)) :
  NoDup ks -> incl (map fst rows) ks ->
  nansum (map (fun k => nansum (map FNum (get_group eqb k rows))) ks)
  = nansum (map FNum (map snd rows)).
Proof.
  intros Hd Hi.
  rewrite (map_ext _ (fun k => FNum (Qred (Qsum (get_group eqb k rows)))))
    by (intros k; apply nansum_finite).
  rewrite <- (map_map (fun k => Qred (Qsum (get_group eqb k rows))) FNum).
  rewrite !nansum_finite. f_equal. apply Qred_complete.
  rewrite Qsum_Qred. now apply group_sums_total.
Qed.

Lemma get_group_FNum (k : K) (ks : list K) (qs : list Q) :
  get_group eqb k (combine ks (map FNum qs))
  = map FNum (get_group eqb k (combine ks qs)).
Proof.
  rewrite <- (get_group_map_values eqb). f_equal.
  revert qs. induction ks as [|x ks IH]; intros [|q qs]; simpl; auto.
  now rewrite IH.
Qed.
End GroupSums.



Lemma dropna_keys_map_values {K V W : Type} (g : V -> W)
      (ks : list (option K)) (vs : list V) :
  dropna_keys (combine ks (map g vs))
  = map (fun kv => (fst kv, g (snd kv))) (dropna_keys (combine ks vs)).
Proof.
  revert vs. induction ks as [|[k|] ks IH]; intros [|v vs]; simpl; auto.
  now rewrite IH.
Qed.

Lemma dropna_keys_values {V : Type} (dates : list (option Timestamp)) (vs : list V) :
  map snd (dropna_keys (combine (map (option_map to_period_M) dates) vs))
  = map snd (filter (fun r => match fst r with Some _ => true | None => false end)
                    (combine dates vs)).
Proof.
  revert vs. induction dates as [|[t|] dates IH]; intros [|v vs]; simpl; auto.
  now rewrite IH.
Qed.



(** ** Largest and smallest amount of a type *)

Lemma fleb_refl (x : float) : isnan x = false -> fleb x x = true.
Proof.
  destruct x as [q|b|]; simpl; intros H.
  - apply Qle_bool_iff. apply Qle_refl.
  - destruct b; reflexivity.
  - discriminate.
Qed.

Lemma fleb_total (x y : float) :
  isnan x = false -> isnan y = false -> fleb x y = true \/ fleb y x = true.
Proof.
  destruct x as [a|[|]|], y as [b|[|]|]; simpl; auto; try discriminate.
  intros _ _. rewrite !Qle_bool_iff.
  destruct (Qlt_le_dec a b) as [H|H]; [left; now apply Qlt_le_weak | now right].
Qed.

Lemma fleb_trans (x y z : float) :
  fleb x y = true -> fleb y z = true -> fleb x z = true.
Proof.
  destruct x as [a|[|]|], y as [b|[|]|], z as [c|[|]|]; simpl; auto;
    try discriminate.
  rewrite !Qle_bool_iff. apply Qle_trans.
Qed.

Lemma fleb_notnan (x y : float) :
  fleb x y = true -> isnan x = false /\ isnan y = false.
Proof. destruct x as [a|[|]|], y as [b|[|]|]; simpl; auto; discriminate. Qed.

Lemma dropnan_notnan (l : list float) :
  Forall (fun x => isnan x = false) l -> dropnan l = l.
Proof.
  unfold dropnan. induction 1 as [|x l Hx _ IH]; simpl; auto.
  now rewrite Hx, IH.
Qed.

(** Folding with "the larger of the two" ends on an element that is at
    least every element. *)
Lemma fold_max (r : list float) (x : float) :
  Forall (fun y => isnan y = false) (x :: r) ->
  let m := fold_left (fun a b => if fleb a b then b else a) r x in
  In m (x :: r) /\ forall y, In y (x :: r) -> fleb y m = true.
Proof.
  revert x. induction r as [|y r IH]; intros x Hn; simpl.
  - split; [now left|]. intros z [<-|[]]. apply fleb_refl. now inversion Hn.
  - inversion Hn as [|? ? Hx Hr]; subst. inversion Hr as [|? ? Hy Hr']; subst.
    destruct (fleb x y) eqn:E.
    + destruct (IH y) as [Hin Hle]; [now constructor|].
      split; [now right|]. intros z [<-|Hz]; [|now apply Hle].
      eapply fleb_trans; [exact E|]. apply Hle. now left.
    + destruct (IH x) as [Hin Hle]; [now constructor|].
      split; [destruct Hin as [<-|Hin]; [now left | now right; right]|].
      intros z [<-|[<-|Hz]].
      * apply Hle. now left.
      * destruct (fleb_total y x Hy Hx) as [H|H]; [|congruence].
        eapply fleb_trans; [exact H|]. apply Hle. now left.
      * apply Hle. now right.
Qed.

Lemma fold_min (r : list float) (x : float) :
  Forall (fun y => isnan y = false) (x :: r) ->
  let m := fold_left (fun a b => if fleb b a then b else a) r x in
  In m (x :: r) /\ forall y, In y (x :: r) -> fleb m y = true.
Proof.
  revert x. induction r as [|y r IH]; intros x Hn; simpl.
  - split; [now left|]. intros z [<-|[]]. apply fleb_refl. now inversion Hn.
  - inversion Hn as [|? ? Hx Hr]; subst. inversion Hr as [|? ? Hy Hr']; subst.
    destruct (fleb y x) eqn:E.
    + destruct (IH y) as [Hin Hle]; [now constructor|].
      split; [now right|]. intros z [<-|Hz]; [|now apply Hle].
      eapply fleb_trans; [|exact E]. apply Hle. now left.
    + destruct (IH x) as [Hin Hle]; [now constructor|].
      split; [destruct Hin as [<-|Hin]; [now left | now right; right]|].
      intros z [<-|[<-|Hz]].
      * apply Hle. now left.
      * destruct (fleb_total x y Hx Hy) as [H|H]; [|congruence].
        eapply fleb_trans; [|exact H]. apply Hle. now left.
      * apply Hle. now right.
Qed.

Lemma nanmax_spec (l : list float) :
  Forall (fun y => isnan y = false) l -> l <> [] ->
  In (nanmax l) l /\ forall y, In y l -> fleb y (nanmax l) = true.
Proof.
  intros Hn Hne. unfold nanmax, extremum. rewrite dropnan_notnan by assumption.
  destruct l as [|x r]; [contradiction|]. now apply fold_max.
Qed.

Lemma nanmin_spec (l : list float) :
  Forall (fun y => isnan y = false) l -> l <> [] ->
  In (nanmin l) l /\ forall y, In y l -> fleb (nanmin l) y = true.
Proof.
  intros Hn Hne. unfold nanmin, extremum. rewrite dropnan_notnan by assumption.
  destruct l as [|x r]; [contradiction|]. now apply fold_min.
Qed.

Lemma cleaned_amounts_notnan (df : DataFrame) (loans : Loans) :
  clean df = Some loans -> Forall (fun x => isnan x = false) (Loan_Amount loans).
Proof.
  intros Hc. destruct (clean_inv df loans Hc)
    as (_ & a & _ & _ & _ & _ & _ & _ & _ & E & _ & _).
  rewrite E. unfold fillna, to_numeric. rewrite map_map.
  apply Forall_forall. intros x Hx. apply in_map_iff in Hx.
  destruct Hx as (c & <- & _). destruct (numeric_cell c); reflexivity.
Qed.

(** A type that occurs has at least one row. *)
Lemma of_type_nonempty {V : Type} (df : Loans) (values : list V) (t : string) :
  List.length values = List.length (Loan_Type df) -> In t (Loan_Type df) ->
  of_type df values t <> [].
Proof.
  unfold of_type, get_group. generalize (Loan_Type df). intros types.
  revert values. induction types as [|k types IH]; intros [|v values] H Hin;
    simpl in *; try discriminate; [tauto|].
  destruct (String.eqb_spec t k) as [->|Hne]; simpl; [discriminate|].
  destruct Hin as [->|Hin]; [contradiction|]. apply IH; auto.
Qed.

Lemma of_type_Forall {V : Type} (P : V -> Prop) (df : Loans) (values : list V) (t : string) :
  Forall P values -> Forall P (of_type df values t).
Proof.
  intros H. apply Forall_forall. intros x Hx. apply of_type_incl in Hx.
  now apply (proj1 (Forall_forall _ _) H).
Qed.

(** In every row of the statistics table, Max_Amount and Min_Amount are
    amounts of loans of that type, and every amount of the type lies between
    them. *)
Theorem max_min_bound_the_type (df : DataFrame) (loans : Loans) (r : StatsRow) :
  clean df = Some loans -> In r (product_stats loans) ->
  In (Max_Amount r) (of_type loans (Loan_Amount loans) (key r)) /\
  In (Min_Amount r) (of_type loans (Loan_Amount loans) (key r)) /\
  (forall x, In x (of_type loans (Loan_Amount loans) (key r)) ->
             fle (Min_Amount r) x /\ fle x (Max_Amount r)).
Proof.
  intros Hc Hr. assert (Ha := clean_aligned df loans Hc).
  destruct (product_stats_rows loans r Ha Hr) as (Ht & _ & _ & _ & Emax & Emin & _).
  assert (Hn : Forall (fun y => isnan y = false)
                      (of_type loans (Loan_Amount loans) (key r))).
  { apply of_type_Forall. now apply (cleaned_amounts_notnan df). }
  assert (Hne : of_type loans (Loan_Amount loans) (key r) <> []).
  { apply of_type_nonempty; auto. now destruct Ha as (_ & H & _). }
  destruct (nanmax_spec _ Hn Hne) as [M1 M2].
  destruct (nanmin_spec _ Hn Hne) as [m1 m2].
  rewrite Emax, Emin. unfold fle. repeat split; auto.
Qed.

Lemma max_min_bound_the_type_witness :
  exists loans,
    clean Edge.two_months = Some loans /\
    map (fun r => (key r, Min_Amount r, Max_Amount r)) (product_stats loans)
    = [("auto", FNum 250, FNum 750); ("home", FNum 500, FNum 1000)] /\
    Forall (fun r => In (Max_Amount r) (of_type loans (Loan_Amount loans) (key r)))
           (product_stats loans).
Proof.
  eexists. split; [reflexivity|]. split; [reflexivity|].
  apply Forall_forall. intros r Hr.
  exact (proj1 (max_min_bound_the_type Edge.two_months _ r eq_refl Hr)).
Defined.

(** ** The average of a type *)

Lemma Qsize_succ (n : nat) :
  (inject_Z (Z.of_nat (S n)) == inject_Z (Z.of_nat n) + 1)%Q.
Proof. rewrite Nat2Z.inj_succ, <- Z.add_1_r, inject_Z_plus. reflexivity. Qed.

Lemma Qsize_pos (n : nat) : (0 < inject_Z (Z.of_nat (S n)))%Q.
Proof.
  change 0%Q with (inject_Z 0). rewrite <- Zlt_Qlt. lia.
Qed.

Lemma Qsum_lower (m : Q) (qs : list Q) :
  (forall q, In q qs -> m <= q)%Q ->
  (inject_Z (Z.of_nat (List.length qs)) * m <= Qsum qs)%Q.
Proof.
  induction qs as [|q qs IH]; intros H.
  - simpl. ring_simplify. apply Qle_refl.
  - change (List.length (q :: qs)) with (S (List.length qs)).
    rewrite Qsize_succ. simpl.
    assert (H1 : (m <= q)%Q) by (apply H; now left).
    assert (H2 : (inject_Z (Z.of_nat (List.length qs)) * m <= Qsum qs)%Q).
    { apply IH. intros x Hx. apply H. now right. }
    setoid_replace ((inject_Z (Z.of_nat (List.length qs)) + 1) * m)%Q
      with (m + inject_Z (Z.of_nat (List.length qs)) * m)%Q by ring.
    now apply Qplus_le_compat.
Qed.

Lemma Qsum_upper (M : Q) (qs : list Q) :
  (forall q, In q qs -> q <= M)%Q ->
  (Qsum qs <= inject_Z (Z.of_nat (List.length qs)) * M)%Q.
Proof.
  induction qs as [|q qs IH]; intros H.
  - simpl. ring_simplify. apply Qle_refl.
  - change (List.length (q :: qs)) with (S (List.length qs)).
    rewrite Qsize_succ. simpl.
    assert (H1 : (q <= M)%Q) by (apply H; now left).
    assert (H2 : (Qsum qs <= inject_Z (Z.of_nat (List.length qs)) * M)%Q).
    { apply IH. intros x Hx. apply H. now right. }
    setoid_replace ((inject_Z (Z.of_nat (List.length qs)) + 1) * M)%Q
      with (M + inject_Z (Z.of_nat (List.length qs)) * M)%Q by ring.
    now apply Qplus_le_compat.
Qed.

(** The mean of finitely many finite values. *)
Lemma nanmean_finite (q : Q) (qs : list Q) :
  nanmean (map FNum (q :: qs))
  = FNum (Qred (Qred (Qsum (q :: qs)) / inject_Z (Z.of_nat (S (List.length qs))))).
Proof.
  unfold nanmean. rewrite dropnan_finite, nansum_finite, length_map.
  reflexivity.
Qed.

Lemma mean_bounds (m M q : Q) (qs : list Q) :
  (forall x, In x (q :: qs) -> m <= x /\ x <= M)%Q ->
  let avg := Qred (Qred (Qsum (q :: qs)) / inject_Z (Z.of_nat (S (List.length qs)))) in
  (m <= avg /\ avg <= M)%Q.
Proof.
  intros H avg. unfold avg. rewrite !Qred_correct.
  pose proof (Qsize_pos (List.length qs)) as Hp. split.
  - apply Qle_shift_div_l; [exact Hp|]. rewrite Qmult_comm.
    apply (Qsum_lower m (q :: qs)). intros x Hx. now apply H.
  - apply Qle_shift_div_r; [exact Hp|]. rewrite Qmult_comm.
    apply (Qsum_upper M (q :: qs)). intros x Hx. now apply H.
Qed.

Lemma mean_times_size (q : Q) (qs : list Q) :
  fmul (nanmean (map FNum (q :: qs))) (of_nat (List.length (q :: qs)))
  = nansum (map FNum (q :: qs)).
Proof.
  rewrite nanmean_finite, nansum_finite. unfold of_nat, of_Z.
  change (List.length (q :: qs)) with (S (List.length qs)). cbn [fmul].
  f_equal. apply Qred_complete. rewrite !Qred_correct.
  field. intros E. pose proof (Qsize_pos (List.length qs)) as Hp.
  rewrite E in Hp. now apply Qlt_irrefl in Hp.
Qed.



(** ** Shares of a portfolio without negative amounts *)

Lemma all_nonneg (l : list float) :
  Forall nonneg_real l ->
  exists qs, l = map FNum qs /\ forall q, In q qs -> (0 <= q)%Q.
Proof.
  induction 1 as [|x l Hx _ (qs & -> & Hqs)].
  - exists []. split; [reflexivity|]. intros q [].
  - destruct x as [q| |]; simpl in Hx; try contradiction.
    exists (q :: qs). split; [reflexivity|]. intros y [<-|Hy]; auto.
Qed.

Lemma Qsum_nonneg (qs : list Q) :
  (forall q, In q qs -> 0 <= q)%Q -> (0 <= Qsum qs)%Q.
Proof.
  induction qs as [|q qs IH]; intros H; simpl; [apply Qle_refl|].
  setoid_replace 0%Q with (0 + 0)%Q by ring.
  apply Qplus_le_compat; [apply H; now left | apply IH; intros x Hx; apply H; now right].
Qed.

Lemma member_le_Qsum (t : Q) (qs : list Q) :
  (forall q, In q qs -> 0 <= q)%Q -> In t qs -> (t <= Qsum qs)%Q.
Proof.
  induction qs as [|q qs IH]; intros H Hin; [contradiction|].
  destruct Hin as [->|Hin]; simpl.
  - setoid_replace t with (t + 0)%Q at 1 by ring.
    apply Qplus_le_compat; [apply Qle_refl|].
    apply Qsum_nonneg. intros x Hx. apply H. now right.
  - setoid_replace t with (0 + t)%Q at 1 by ring.
    apply Qplus_le_compat; [apply H; now left|].
    apply IH; auto. intros x Hx. apply H. now right.
Qed.

Lemma nansum_nonneg (l : list float) :
  Forall nonneg_real l -> nonneg_real (nansum l).
Proof.
  intros H. destruct (all_nonneg l H) as (qs & -> & Hqs).
  rewrite nansum_finite. simpl. rewrite Qred_correct. now apply Qsum_nonneg.
Qed.



(** ** Loan types in normal form *)

Lemma is_space_lower (c : ascii) : is_space (lower_ascii c) = is_space c.
Proof. destruct c as [[|] [|] [|] [|] [|] [|] [|] [|]]; reflexivity. Qed.

Lemma lower_ascii_idem (c : ascii) : lower_ascii (lower_ascii c) = lower_ascii c.
Proof. destruct c as [[|] [|] [|] [|] [|] [|] [|] [|]]; reflexivity. Qed.

Lemma lower_idem (s : string) : lower (lower s) = lower s.
Proof. induction s as [|c s IH]; simpl; [reflexivity|]. now rewrite lower_ascii_idem, IH. Qed.

Lemma lskip_lower (s : string) :
  lskip is_space (lower s) = lower (lskip is_space s).
Proof.
  induction s as [|c s IH]; simpl; [reflexivity|].
  rewrite is_space_lower. destruct (is_space c); auto.
Qed.

Lemma rskip_lower (s : string) :
  rskip is_space (lower s) = lower (rskip is_space s).
Proof.
  induction s as [|c s IH]; simpl; [reflexivity|].
  rewrite IH, is_space_lower. destruct (rskip is_space s); simpl; auto.
  destruct (is_space c); reflexivity.
Qed.

Lemma strip_lower (s : string) : strip (lower s) = lower (strip s).
Proof. unfold strip. now rewrite lskip_lower, rskip_lower. Qed.

Lemma rskip_idem (sp : ascii -> bool) (s : string) :
  rskip sp (rskip sp s) = rskip sp s.
Proof.
  induction s as [|c s IH]; simpl; [reflexivity|].
  destruct (rskip sp s) as [|d r] eqn:E.
  - destruct (sp c) eqn:Ec; simpl; [reflexivity|]. now rewrite Ec.
  - simpl in *. now rewrite IH.
Qed.

Lemma lskip_rskip (sp : ascii -> bool) (s : string) :
  lskip sp (rskip sp (lskip sp s)) = rskip sp (lskip sp s).
Proof.
  induction s as [|c s IH]; simpl; [reflexivity|].
  destruct (sp c) eqn:Ec; [exact IH|].
  simpl. destruct (rskip sp s); rewrite ?Ec; simpl; rewrite ?Ec; reflexivity.
Qed.

Lemma strip_idem (s : string) : strip (strip s) = strip s.
Proof. unfold strip. now rewrite lskip_rskip, rskip_idem. Qed.

Lemma normalize_idem (s : string) : normalize (normalize s) = normalize s.
Proof. unfold normalize. now rewrite strip_lower, lower_idem, strip_idem. Qed.

(** Every cleaned loan type is in normal form: trimming and lower-casing it
    again changes nothing, so the keys of the reports are stable under line
    61. *)
Theorem cleaned_types_are_normal (df : DataFrame) (loans : Loans) :
  clean df = Some loans ->
  Forall (fun t => normalize t = t) (Loan_Type loans).
Proof.
  intros Hc. destruct (clean_inv df loans Hc)
    as (_ & _ & t & _ & _ & _ & _ & _ & _ & _ & _ & E).
  rewrite E. apply Forall_forall. intros x Hx. apply in_map_iff in Hx.
  destruct Hx as (s & <- & _). apply normalize_idem.
Qed.

Lemma cleaned_types_are_normal_witness :
  exists loans,
    clean Edge.two_months = Some loans /\
    Loan_Type loans = ["home"; "auto"; "auto"; "home"] /\
    Forall (fun t => normalize t = t) (Loan_Type loans).
Proof.
  eexists. split; [reflexivity|]. split; [reflexivity|].
  exact (cleaned_types_are_normal Edge.two_months _ eq_refl).
Defined.

(** ** Dates and the labels of their months *)

Lemma strptime_valid (s : string) (t : Timestamp) :
  strptime s = Some t -> (day t <= days_in_month (year t) (month t))%Z.
Proof.
  unfold strptime. destruct (split_dash s) as [d [r|]]; [|discriminate].
  destruct (split_dash r) as [m [y|]]; [|discriminate].
  destruct (field_d d) as [dd|]; [|discriminate].
  destruct (field_m m) as [mm|]; [|discriminate].
  destruct (field_Y y) as [yy|]; [|discriminate].
  destruct (valid_date _ && in_bounds _)%bool eqn:E; [|discriminate].
  intros [= <-]. apply andb_true_iff in E. destruct E as [E _].
  unfold valid_date in E. apply andb_true_iff in E. destruct E as [_ E].
  cbn [year month day] in *. now apply Z.leb_le in E.
Qed.

Lemma period_month_of_date (t : Timestamp) :
  (1 <= month t <= 12)%Z -> period_month (to_period_M t) = month t.
Proof.
  unfold period_month, to_period_M. intros H. Z.div_mod_to_equations. lia.
Qed.

(** Every cleaned date is a day of the calendar, between 1677 and 2262, and
    the monthly trend has a row labelled with its year and month. *)
Theorem dated_loan_has_its_month (df : DataFrame) (loans : Loans) (t : Timestamp) :
  clean df = Some loans -> In (Some t) (Date_Granted loans) ->
  (1677 <= year t <= 2262)%Z /\ (1 <= month t <= 12)%Z /\
  (1 <= day t <= days_in_month (year t) (month t))%Z /\
  In (digits 4 (year t) ++ "-" ++ digits 2 (month t))%string
     (map fst (monthly_summary loans)).
Proof.
  intros Hc Hin. assert (Ha := clean_aligned df loans Hc).
  destruct (cleaned_dates_range df loans t Hc Hin) as (Hy & Hm & Hd).
  assert (Hv : (day t <= days_in_month (year t) (month t))%Z).
  { destruct (clean_inv df loans Hc)
      as (d & _ & _ & _ & _ & _ & _ & _ & _ & _ & E3 & _).
    rewrite E3 in Hin. unfold to_datetime in Hin. apply in_map_iff in Hin.
    destruct Hin as (c & E & _). now apply strptime_valid in E. }
  repeat split; try lia.
  assert (Hp : In (to_period_M t) (map fst (monthly_groups loans))).
  { unfold monthly_groups, groupby_agg, Month. rewrite map_map. simpl.
    rewrite map_id. apply sorted_months_In. apply month_keys.
    - destruct Ha as (_ & H2 & H3). congruence.
    - exists t. auto. }
  unfold monthly_summary. rewrite map_map.
  apply in_map_iff in Hp. destruct Hp as ([p x] & Ep & Hp). simpl in Ep. subst p.
  apply in_map_iff. exists (to_period_M t, x). split; [|exact Hp].
  change (period_str (to_period_M t)
          = (digits 4 (year t) ++ "-" ++ digits 2 (month t))%string).
  unfold period_str.
  now rewrite period_year_of_date, period_month_of_date by lia.
Qed.

Lemma dated_loan_has_its_month_witness :
  exists loans,
    clean Edge.two_months = Some loans /\
    In (Some {| year := 2024; month := 2; day := 15 |}) (Date_Granted loans) /\
    In "2024-02" (map fst (monthly_summary loans)).
Proof.
  eexists. split; [reflexivity|].
  assert (Hin : In (Some {| year := 2024; month := 2; day := 15 |})
                   [Some {| year := 2024; month := 1; day := 1 |};
                    Some {| year := 2024; month := 2; day := 15 |};
                    None;
                    Some {| year := 2024; month := 1; day := 20 |}])
    by (right; left; reflexivity).
  split; [exact Hin|].
  exact (proj2 (proj2 (proj2 (dated_loan_has_its_month Edge.two_months _ _
                                                      eq_refl Hin)))).
Defined.

(** ** The order of the records *)

Lemma filter_perm {A : Type} (f : A -> bool) (l l' : list A) :
  Permutation l l' -> Permutation (filter f l) (filter f l').
Proof.
  induction 1; simpl.
  - constructor.
  - destruct (f x); auto.
  - destruct (f x), (f y); auto. constructor.
  - etransitivity; eauto.
Qed.

Lemma get_group_perm {K V : Type} (eqb : K -> K -> bool) (k : K)
      (rows rows' : list (K * V)) :
  Permutation rows rows' ->
  Permutation (get_group eqb k rows) (get_group eqb k rows').
Proof. intros H. unfold get_group. now apply Permutation_map, filter_perm. Qed.

Lemma dropna_keys_perm {K V : Type} (rows rows' : list (option K * V)) :
  Permutation rows rows' -> Permutation (dropna_keys rows) (dropna_keys rows').
Proof.
  induction 1 as [|[[k|] v] l l' H IH|[[k|] v] [[k'|] v'] l|l l' l'' H IH H' IH'];
    simpl; auto.
  - constructor.
  - etransitivity; eauto.
Qed.

Lemma combine_map_map {A B C : Type} (f : A -> B) (g : A -> C) (l : list A) :
  combine (map f l) (map g l) = map (fun x => (f x, g x)) l.
Proof. induction l as [|a l IH]; simpl; [reflexivity|]. now rewrite IH. Qed.

Lemma map_both {A B : Type} (f g : A -> B) (l l' : list A) :
  l = l' -> (forall x, f x = g x) -> map f l = map g l'.
Proof. intros -> H. now apply map_ext. Qed.

Section SortedLists.
Context {A : Type}.
Variable lt : A -> A -> Prop.
Hypothesis lt_irrefl : forall x, ~ lt x x.
Hypothesis lt_trans : forall x y z, lt x y -> lt y z -> lt x z.

(** A strictly increasing list is determined by its members. *)
Lemma increasing_unique (l l' : list A) :
  StronglySorted lt l -> StronglySorted lt l' ->
  (forall x, In x l <-> In x l') -> l = l'.
Proof.
  intros Hl. revert l'. induction Hl as [|a l Hs IH Ha]; intros l' Hl' Hm.
  - destruct l' as [|b l']; [reflexivity|].
    exfalso. apply (proj2 (Hm b)). now left.
  - destruct Hl' as [|b l' Hs' Hb].
    + exfalso. apply (proj1 (Hm a)). now left.
    + rewrite Forall_forall in Ha, Hb.
      assert (E : a = b).
      { destruct (proj1 (Hm a) (or_introl eq_refl)) as [E|Hin]; [now symmetry|].
        destruct (proj2 (Hm b) (or_introl eq_refl)) as [E|Hin']; [exact E|].
        exfalso. apply (lt_irrefl a). eapply lt_trans; [apply Ha|apply Hb]; eauto. }
      subst b. f_equal. apply IH; auto. intros x. split; intros Hx.
      * destruct (proj1 (Hm x) (or_intror Hx)) as [E|Hin]; auto.
        subst x. exfalso. apply (lt_irrefl a). now apply Ha.
      * destruct (proj2 (Hm x) (or_intror Hx)) as [E|Hin]; auto.
        subst x. exfalso. apply (lt_irrefl a). now apply Hb.
Qed.
End SortedLists.

Lemma sorted_months_perm (l l' : list Z) :
  Permutation l l' ->
  ZSort.sort (unique Z.eqb l) = ZSort.sort (unique Z.eqb l').
Proof.
  intros H. apply (increasing_unique Z.lt).
  - intros x. lia.
  - intros x y z. lia.
  - apply sorted_months_increasing.
  - apply sorted_months_increasing.
  - intros x. rewrite !sorted_months_In. split; apply Permutation_in; auto.
    now symmetry.
Qed.

(** *** The order of strings *)

Lemma ascii_compare_lt_trans (a b c : ascii) :
  Ascii.compare a b = Lt -> Ascii.compare b c = Lt -> Ascii.compare a c = Lt.
Proof.
  unfold Ascii.compare. rewrite !N.compare_lt_iff. apply N.lt_trans.
Qed.

Lemma ascii_compare_refl (a : ascii) : Ascii.compare a a = Eq.
Proof. unfold Ascii.compare. apply N.compare_refl. Qed.

Lemma string_compare_refl (s : string) : String.compare s s = Eq.
Proof.
  induction s as [|a s IH]; simpl; [reflexivity|]. now rewrite ascii_compare_refl.
Qed.

Lemma string_compare_lt_trans (s t u : string) :
  String.compare s t = Lt -> String.compare t u = Lt -> String.compare s u = Lt.
Proof.
  revert t u. induction s as [|a s IH]; intros [|b t] [|c u]; simpl;
    try discriminate; auto.
  destruct (Ascii.compare a b) eqn:Eab; try discriminate;
    destruct (Ascii.compare b c) eqn:Ebc; try discriminate; intros H1 H2.
  - apply Ascii.compare_eq_iff in Eab, Ebc. subst.
    rewrite ascii_compare_refl. eapply IH; eauto.
  - apply Ascii.compare_eq_iff in Eab. subst. now rewrite Ebc.
  - apply Ascii.compare_eq_iff in Ebc. subst. now rewrite Eab.
  - now rewrite (ascii_compare_lt_trans a b c).
Qed.

Lemma string_ltb_trans (s t u : string) :
  String.ltb s t = true -> String.ltb t u = true -> String.ltb s u = true.
Proof.
  unfold String.ltb. intros H1 H2.
  destruct (String.compare s t) eqn:E1; try discriminate.
  destruct (String.compare t u) eqn:E2; try discriminate.
  now rewrite (string_compare_lt_trans s t u).
Qed.

Lemma string_ltb_irrefl (s : string) : String.ltb s s <> true.
Proof. unfold String.ltb. now rewrite string_compare_refl. Qed.

Lemma sorted_types_increasing (l : list string) :
  StronglySorted (fun a b => String.ltb a b = true)
                 (StringSort.sort (unique String.eqb l)).
Proof.
  apply Sorted_StronglySorted.
  - intros x y z. apply string_ltb_trans.
  - apply sorted_distinct_strings.
    + apply StringSort.Sorted_sort.
    + apply sorted_types_NoDup.
Qed.

Lemma sorted_types_perm (l l' : list string) :
  Permutation l l' ->
  StringSort.sort (unique String.eqb l) = StringSort.sort (unique String.eqb l').
Proof.
  intros H. apply (increasing_unique (fun a b => String.ltb a b = true)).
  - apply string_ltb_irrefl.
  - apply string_ltb_trans.
  - apply sorted_types_increasing.
  - apply sorted_types_increasing.
  - intros x. rewrite !sorted_types_In. split; apply Permutation_in; auto.
    now symmetry.
Qed.

(** *** Tables of permuted records *)

(** Each cleaned column is computed record by record. *)
Lemma clean_rowwise (df : DataFrame) (loans : Loans) :
  clean df = Some loans ->
  exists i a d t,
    get_loc "Loan_ID" (columns df) = Some i /\
    get_loc "Loan_Amount" (columns df) = Some a /\
    get_loc "Date_Granted" (columns df) = Some d /\
    get_loc "Loan_Type" (columns df) = Some t /\
    loans = {| Loan_ID := map (fun r => nth i r NaN) (records df);
               Loan_Amount :=
                 map (fun r => if isnan (numeric_cell (nth a r NaN)) then FNum 0
                               else numeric_cell (nth a r NaN)) (records df);
               Date_Granted :=
                 map (fun r => strptime (str_cell (nth d r NaN))) (records df);
               Loan_Type :=
                 map (fun r => lower (strip (str_cell (nth t r NaN)))) (records df) |}.
Proof.
  unfold clean, getitem.
  destruct (get_loc "Date_Granted" (columns df)) as [d|]; [|discriminate].
  destruct (get_loc "Loan_Amount" (columns df)) as [a|]; [|discriminate].
  destruct (get_loc "Loan_Type" (columns df)) as [t|]; [|discriminate].
  destruct (get_loc "Loan_ID" (columns df)) as [i|]; [|discriminate].
  simpl. intros [= <-]. exists i, a, d, t. repeat (split; [reflexivity|]).
  unfold fillna, to_numeric, to_datetime, astype_str. now rewrite !map_map.
Qed.

Section RowOrder.
Context {A : Type}.
Variable fi : A -> cell.
Variable fa : A -> float.
Variable fd : A -> option Timestamp.
Variable ft : A -> string.
Hypothesis fa_notnan : forall r, isnan (fa r) = false.

Let loans_of (recs : list A) : Loans :=
  {| Loan_ID := map fi recs; Loan_Amount := map fa recs;
     Date_Granted := map fd recs; Loan_Type := map ft recs |}.

Lemma loans_of_aligned (recs : list A) : aligned (loans_of recs).
Proof. unfold aligned, loans_of. simpl. now rewrite !length_map. Qed.

Lemma of_type_perm {V : Type} (fv : A -> V) (recs recs' : list A) (t : string) :
  Permutation recs recs' ->
  Permutation (of_type (loans_of recs) (map fv recs) t)
              (of_type (loans_of recs') (map fv recs') t).
Proof.
  intros H. unfold of_type, loans_of. simpl. rewrite !combine_map_map.
  now apply get_group_perm, Permutation_map.
Qed.

Lemma monthly_summary_perm (recs recs' : list A) :
  Permutation recs recs' ->
  monthly_summary (loans_of recs) = monthly_summary (loans_of recs').
Proof.
  intros H. unfold monthly_summary, monthly_groups, groupby_agg, Month, loans_of.
  simpl. f_equal. rewrite !map_map, !combine_map_map.
  set (g := fun x => (option_map to_period_M (fd x), fa x)).
  assert (P : Permutation (dropna_keys (map g recs)) (dropna_keys (map g recs')))
    by now apply dropna_keys_perm, Permutation_map.
  apply map_both.
  - apply sorted_months_perm. now apply Permutation_map.
  - intros p. f_equal. apply nansum_perm. now apply get_group_perm.
Qed.

Lemma count_perm (l l' : Series) : Permutation l l' -> count l = count l'.
Proof. intros H. unfold count. now apply Permutation_length, filter_perm. Qed.

Lemma nanmean_perm (l l' : list float) : Permutation l l' -> nanmean l = nanmean l'.
Proof.
  intros H. unfold nanmean. rewrite (nansum_perm l l' H).
  now rewrite (Permutation_length (dropnan_perm l l' H)).
Qed.

Lemma keys_perm (recs recs' : list A) :
  Permutation recs recs' ->
  StringSort.sort (unique String.eqb (Loan_Type (loans_of recs)))
  = StringSort.sort (unique String.eqb (Loan_Type (loans_of recs'))).
Proof. intros H. apply sorted_types_perm. simpl. now apply Permutation_map. Qed.

Lemma totals_perm (recs recs' : list A) :
  Permutation recs recs' ->
  total_loans_disbursed (loans_of recs) = total_loans_disbursed (loans_of recs').
Proof.
  intros H. unfold total_loans_disbursed.
  rewrite !aggregate_totals, !stats_totals by apply loans_of_aligned.
  rewrite (keys_perm recs recs' H). f_equal. apply map_ext. intros t.
  apply nansum_perm. now apply (of_type_perm fa).
Qed.

Lemma product_stats_perm (recs recs' : list A) :
  Permutation recs recs' ->
  map (fun r => (key r, Total_Loans r, Total_Amount r, Avg_Amount r,
                 Portfolio_Percentage r)) (product_stats (loans_of recs))
  = map (fun r => (key r, Total_Loans r, Total_Amount r, Avg_Amount r,
                   Portfolio_Percentage r)) (product_stats (loans_of recs')).
Proof.
  intros H. unfold product_stats.
  rewrite !aggregate_table by apply loans_of_aligned.
  rewrite (totals_perm recs recs' H), (keys_perm recs recs' H), !map_map.
  apply map_ext. intros t. unfold portfolio_percentage. cbn [key Total_Loans
    Total_Amount Avg_Amount Portfolio_Percentage].
  assert (E1 : count (of_type (loans_of recs) (Loan_ID (loans_of recs)) t)
               = count (of_type (loans_of recs') (Loan_ID (loans_of recs')) t))
    by (apply count_perm, (of_type_perm fi); exact H).
  assert (E2 : nansum (of_type (loans_of recs) (Loan_Amount (loans_of recs)) t)
               = nansum (of_type (loans_of recs') (Loan_Amount (loans_of recs')) t))
    by (apply nansum_perm, (of_type_perm fa); exact H).
  assert (E3 : nanmean (of_type (loans_of recs) (Loan_Amount (loans_of recs)) t)
               = nanmean (of_type (loans_of recs') (Loan_Amount (loans_of recs')) t))
    by (apply nanmean_perm, (of_type_perm fa); exact H).
  now rewrite E1, E2, E3.
Qed.

Lemma extremes_perm (recs recs' : list A) :
  Permutation recs recs' ->
  Forall2 (fun r r' => fle (Max_Amount r) (Max_Amount r') /\
                       fle (Max_Amount r') (Max_Amount r) /\
                       fle (Min_Amount r) (Min_Amount r') /\
                       fle (Min_Amount r') (Min_Amount r))
          (product_stats (loans_of recs)) (product_stats (loans_of recs')).
Proof.
  intros H. unfold product_stats.
  rewrite !aggregate_table by apply loans_of_aligned.
  rewrite (keys_perm recs recs' H), !map_map.
  assert (Hk : forall t, In t (StringSort.sort (unique String.eqb
                                 (Loan_Type (loans_of recs')))) ->
                         In t (Loan_Type (loans_of recs)) /\
                         In t (Loan_Type (loans_of recs'))).
  { intros t Ht. apply (proj1 (sorted_types_In _ _)) in Ht. split; auto.
    simpl in *. eapply Permutation_in; [|exact Ht].
    apply Permutation_map. now symmetry. }
  induction (StringSort.sort (unique String.eqb (Loan_Type (loans_of recs'))))
    as [|t ks IH]; simpl; constructor.
  - destruct (Hk t (or_introl eq_refl)) as [Ht Ht'].
    set (g := of_type (loans_of recs) (Loan_Amount (loans_of recs)) t).
    set (g' := of_type (loans_of recs') (Loan_Amount (loans_of recs')) t).
    assert (P : Permutation g g') by now apply (of_type_perm fa).
    assert (Hn : Forall (fun y => isnan y = false) g).
    { apply of_type_Forall. apply Forall_forall. intros x Hx.
      simpl in Hx. apply in_map_iff in Hx. destruct Hx as (r & <- & _). apply fa_notnan. }
    assert (Hn' : Forall (fun y => isnan y = false) g').
    { apply of_type_Forall. apply Forall_forall. intros x Hx.
      simpl in Hx. apply in_map_iff in Hx. destruct Hx as (r & <- & _). apply fa_notnan. }
    assert (Hne : g <> []).
    { apply of_type_nonempty; auto. simpl. now rewrite !length_map. }
    assert (Hne' : g' <> []).
    { apply of_type_nonempty; auto. simpl. now rewrite !length_map. }
    destruct (nanmax_spec g Hn Hne) as [M1 M2].
    destruct (nanmax_spec g' Hn' Hne') as [M1' M2'].
    destruct (nanmin_spec g Hn Hne) as [m1 m2].
    destruct (nanmin_spec g' Hn' Hne') as [m1' m2'].
    unfold fle. repeat split.
    + apply M2'. eapply Permutation_in; eauto.
    + apply M2. eapply Permutation_in; [symmetry|]; eauto.
    + apply m2. eapply Permutation_in; [symmetry|]; eauto.
    + apply m2'. eapply Permutation_in; eauto.
  - apply IH. intros x Hx. apply Hk. now right.
Qed.

Lemma joined_perm {V R : Type} (fv : A -> V) (agg : list V -> R)
      (recs recs' : list A) :
  Permutation recs recs' ->
  (forall l l', Permutation l l' -> agg l = agg l') ->
  Permutation
    (map (fun t => (t, agg (of_type (loans_of recs) (map fv recs) t)))
         (all_loan_types (loans_of recs)))
    (map (fun t => (t, agg (of_type (loans_of recs') (map fv recs') t)))
         (all_loan_types (loans_of recs'))).
Proof.
  intros H Hagg.
  rewrite (map_ext _ (fun t => (t, agg (of_type (loans_of recs') (map fv recs') t)))).
  - apply Permutation_map. unfold all_loan_types.
    apply NoDup_Permutation; try (apply unique_NoDup, String.eqb_eq).
    intros t. rewrite !(unique_In String.eqb String.eqb_eq). simpl.
    split; apply Permutation_in; apply Permutation_map; auto. now symmetry.
  - intros t. f_equal. apply Hagg. now apply of_type_perm.
Qed.

Lemma product_count_perm (recs recs' : list A) :
  Permutation recs recs' ->
  Permutation (product_count (loans_of recs)) (product_count (loans_of recs')).
Proof.
  intros H. rewrite !product_count_table by apply loans_of_aligned.
  apply (joined_perm fi count); auto. apply count_perm.
Qed.

Lemma product_amount_perm (recs recs' : list A) :
  Permutation recs recs' ->
  Permutation (product_amount (loans_of recs)) (product_amount (loans_of recs')).
Proof.
  intros H. rewrite !product_amount_table by apply loans_of_aligned.
  apply (joined_perm fa nansum); auto. apply nansum_perm.
Qed.
End RowOrder.


Lemma shuffled_records :
  Permutation (records Edge.two_months) (records Edge.two_months_shuffled).
Proof.
  simpl.
  apply (Permutation_cons_app [_; _; _] []).
  apply (Permutation_cons_app [_; _] []).
  reflexivity.
Defined.




(** ** Loan counts of the statistics table *)

(** The Total_Loans column of the statistics table adds up to the number of
    rows whose Loan_ID is not null, and no type has more loans counted than
    it has rows. *)
Theorem stats_counts_add_up (df : DataFrame) (loans : Loans) :
  clean df = Some loans ->
  list_sum (map Total_Loans (product_stats loans)) = count (Loan_ID loans) /\
  Forall (fun r => Total_Loans r
                   <= List.length (of_type loans (Loan_ID loans) (key r)))
         (product_stats loans).
Proof.
  intros Hc. assert (Ha := clean_aligned df loans Hc). split.
  - unfold product_stats. rewrite aggregate_table, !map_map by assumption.
    cbn [Total_Loans]. unfold count, of_type.
    rewrite (group_counts_total String.eqb String.eqb_eq notna).
    + rewrite map_snd_combine; [reflexivity|]. now destruct Ha as (H & _).
    + apply sorted_types_NoDup.
    + intros t Ht. apply sorted_types_In.
      rewrite map_fst_combine in Ht; auto. now destruct Ha as (H & _).
  - apply Forall_forall. intros r Hr.
    destruct (product_stats_rows loans r Ha Hr) as (_ & -> & _).
    unfold count. apply filter_length_le.
Qed.

Lemma stats_counts_add_up_witness :
  exists loans,
    clean Edge.two_months = Some loans /\
    map Total_Loans (product_stats loans) = [1; 2] /\
    count (Loan_ID loans) = 3 /\
    list_sum (map Total_Loans (product_stats loans)) = count (Loan_ID loans).
Proof.
  eexists. split; [reflexivity|]. split; [reflexivity|]. split; [reflexivity|].
  exact (proj1 (stats_counts_add_up Edge.two_months _ eq_refl)).
Defined.

(** ** Month labels in the order of strings *)

Lemma digit_char_compare (x y : Z) :
  (0 <= x <= 9)%Z -> (0 <= y <= 9)%Z ->
  Ascii.compare (digit_char x) (digit_char y) = (x ?= y)%Z.
Proof.
  intros Hx Hy. unfold Ascii.compare, digit_char, ascii_of_nat.
  rewrite !N_ascii_embedding by lia.
  rewrite <- N2Z.inj_compare, !nat_N_Z, !Nat2Z.inj_add, !Z2Nat.id by lia.
  apply Z.add_compare_mono_l.
Qed.

Lemma mod10_digit (a : Z) : (0 <= a mod 10 <= 9)%Z.
Proof. pose proof (Z.mod_pos_bound a 10). lia. Qed.

Lemma label_lt (y m y' m' : Z) :
  (0 <= y <= 9999)%Z -> (0 <= y' <= 9999)%Z ->
  (0 <= m <= 99)%Z -> (0 <= m' <= 99)%Z ->
  (y < y' \/ (y = y' /\ m < m'))%Z ->
  String.compare (digits 4 y ++ "-" ++ digits 2 m)%string
                 (digits 4 y' ++ "-" ++ digits 2 m')%string = Lt.
Proof.
  intros Hy Hy' Hm Hm' Hlt. cbv beta iota delta [digits append].
  cbn [String.compare]. rewrite !digit_char_compare by apply mod10_digit.
  change (Ascii.compare "-" "-") with Eq.
  repeat match goal with
         | |- context [(?a ?= ?b)%Z] => destruct (Z.compare_spec a b)
         end; try reflexivity; exfalso; Z.div_mod_to_equations; lia.
Qed.

Lemma period_str_lt (p q : Period) :
  (0 <= period_year p <= 9999)%Z -> (0 <= period_year q <= 9999)%Z ->
  (p < q)%Z -> String.ltb (period_str p) (period_str q) = true.
Proof.
  intros Hp Hq Hlt. unfold String.ltb, period_str. rewrite label_lt; auto.
  - unfold period_month. Z.div_mod_to_equations. lia.
  - unfold period_month. Z.div_mod_to_equations. lia.
  - unfold period_year, period_month in *. Z.div_mod_to_equations. lia.
Qed.

Lemma increasing_map {A B : Type} (R : A -> A -> Prop) (S : B -> B -> Prop)
      (f : A -> B) (l : list A) :
  (forall x y, In x l -> In y l -> R x y -> S (f x) (f y)) ->
  StronglySorted R l -> StronglySorted S (map f l).
Proof.
  intros H. induction 1 as [|a l Hs IH Ha]; simpl; constructor.
  - apply IH. intros x y Hx Hy. apply H; now right.
  - rewrite Forall_forall in *. intros b Hb. apply in_map_iff in Hb.
    destruct Hb as (x & <- & Hx). apply H; [now left | now right | now apply Ha].
Qed.

(** The labels of the monthly trend are strictly increasing in the order of
    strings: read as text, the Month column is in chronological order. *)
Theorem month_labels_increasing (df : DataFrame) (loans : Loans) :
  clean df = Some loans ->
  StronglySorted (fun a b => String.ltb a b = true)
                 (map fst (monthly_summary loans)).
Proof.
  intros Hc. assert (Ha := clean_aligned df loans Hc).
  unfold monthly_summary. rewrite map_map.
  rewrite (map_ext _ (fun r => period_str (fst r))) by (intros [p x]; reflexivity).
  rewrite <- map_map.
  assert (Hk : forall p, In p (map fst (monthly_groups loans)) ->
                         (0 <= period_year p <= 9999)%Z).
  { intros p Hp. unfold monthly_groups, groupby_agg, Month in Hp.
    rewrite map_map in Hp. simpl in Hp. rewrite map_id in Hp.
    apply (proj1 (sorted_months_In _ _)) in Hp. apply month_keys in Hp.
    - destruct Hp as (t & Ht & <-).
      destruct (cleaned_dates_range df loans t Hc Ht) as (Hy & Hm & _).
      rewrite period_year_of_date; lia.
    - destruct Ha as (_ & H2 & H3). congruence. }
  apply (increasing_map Z.lt).
  - intros p q Hp Hq. apply period_str_lt; auto.
  - unfold monthly_groups, groupby_agg. rewrite map_map. simpl. rewrite map_id.
    apply sorted_months_increasing.
Qed.

Lemma month_labels_increasing_witness :
  exists loans,
    clean Edge.two_months = Some loans /\
    map fst (monthly_summary loans) = ["2024-01"; "2024-02"] /\
    StronglySorted (fun a b => String.ltb a b = true)
                   (map fst (monthly_summary loans)).
Proof.
  eexists. split; [reflexivity|]. split; [reflexivity|].
  exact (month_labels_increasing Edge.two_months _ eq_refl).
Defined.
